(** * Mollang highlighter: keyword registry, rule compiler, classification

    A shallow embedding of [src/core/keywords.py] and
    [src/core/highlighter.py].

    - Python [str] values are sequences of Unicode code points ([pystr]).
      All glyphs of the pattern catalogue lie in the Basic Multilingual
      Plane, where a code point is one UTF-16 unit of the [QString] the
      highlighter receives, so offsets into a text unit are list indices.
    - Python dictionaries are association lists in insertion order (the
      rule compiler iterates over them, so order is observable).
    - Code that can raise returns [option]; [None] is a propagated
      exception.
    - [QRegularExpression] and [QSyntaxHighlighter.setFormat] belong to Qt;
      their documented behaviour is modelled in [Module Regex] and
      [setFormat]. *)

From Stdlib Require Import String Ascii List NArith ZArith Arith Bool Lia.
Import ListNotations.

Set Warnings "-register-all".

(** ** Python strings *)

Definition pystr := list N.

Definition pystr_eqb (a b : pystr) : bool :=
  if list_eq_dec N.eq_dec a b then true else false.

(** Decoding of the UTF-8 bytes of a literal of this file into code points,
    so that the literals of the Python source can be written as they are. *)
Fixpoint utf8_decode (bs : list N) : pystr :=
  match bs with
  | [] => []
  | b0 :: t0 =>
    if (b0 <? 128)%N then b0 :: utf8_decode t0 else
    match t0 with
    | [] => []
    | b1 :: t1 =>
      if (b0 <? 224)%N then ((b0 - 192) * 64 + (b1 - 128))%N :: utf8_decode t1 else
      match t1 with
      | [] => []
      | b2 :: t2 =>
        if (b0 <? 240)%N
        then ((b0 - 224) * 4096 + (b1 - 128) * 64 + (b2 - 128))%N :: utf8_decode t2
        else
        match t2 with
        | [] => []
        | b3 :: t3 =>
          ((b0 - 240) * 262144 + (b1 - 128) * 4096 + (b2 - 128) * 64 + (b3 - 128))%N
            :: utf8_decode t3
        end
      end
    end
  end.

Definition u (s : string) : pystr :=
  utf8_decode (map N_of_ascii (list_ascii_of_string s)).

(** [needle in haystack] for two Python strings: substring test. *)
Fixpoint is_prefix (a b : pystr) : bool :=
  match a, b with
  | [], _ => true
  | x :: a', y :: b' => (x =? y)%N && is_prefix a' b'
  | _ :: _, [] => false
  end.

Fixpoint is_substring (a b : pystr) : bool :=
  is_prefix a b || match b with [] => false | _ :: b' => is_substring a b' end.

(** ** Regular expressions (the fragment of PCRE the catalogue uses) *)

Module Regex.

Inductive regex : Type :=
| Chr (c : N)                                  (* a literal character *)
| Cls (cs : list N)                            (* [...] *)
| Cat (r1 r2 : regex)                          (* r1 r2 *)
| Alt (r1 r2 : regex)                          (* (?:r1|r2) *)
| Rep (r : regex) (lo : nat) (hi : option nat) (* r{lo,hi}, greedy; r+ is r{1,} *)
| WordB                                        (* \b *)
| NegLook (r : regex)                          (* (?!r) *)
| Eps.

(** The literal string [s]. *)
Fixpoint lit (s : pystr) : regex :=
match s with
| [] => Eps
| [c] => Chr c
| c :: s' => Cat (Chr c) (lit s')
end.

(** The concatenation of [rs]. *)
Fixpoint seq (rs : list regex) : regex :=
match rs with
| [] => Eps
| [r] => r
| r :: rs' => Cat r (seq rs')
end.

Definition orelse (a b : option nat) : option nat :=
match a with Some _ => a | None => b end.

(** Exactly [n] iterations of [body]. *)
Fixpoint times (body : nat -> (nat -> option nat) -> option nat)
       (n : nat) (pos : nat) (k : nat -> option nat) : option nat :=
match n with
| 0 => k pos
| S n' => body pos (fun p => times body n' p k)
end.

(** At most [n] further iterations, as many as possible first; an iteration
  that consumes nothing ends the loop. *)
Fixpoint upto (body : nat -> (nat -> option nat) -> option nat)
       (n : nat) (pos : nat) (k : nat -> option nat) : option nat :=
match n with
| 0 => k pos
| S n' =>
  orelse (body pos (fun p => if p =? pos then None else upto body n' p k))
         (k pos)
end.

Section Matcher.

(** [\w] of the engine; [\b] is defined from it. *)
Variable is_word : N -> bool.
Variable text : pystr.

Definition word_at (pos : nat) : bool :=
match nth_error text pos with Some c => is_word c | None => false end.

Definition word_before (pos : nat) : bool :=
match pos with 0 => false | S p => word_at p end.

(** Backtracking matcher in continuation-passing style: [m r pos k] tries
the ways [r] matches at [pos] in PCRE's order of preference and
returns the first end position accepted by [k]. *)
Fixpoint m (r : regex) (pos : nat) (k : nat -> option nat) : option nat :=
match r with
| Chr c =>
match nth_error text pos with
| Some d => if (d =? c)%N then k (S pos) else None
| None => None
end
| Cls cs =>
match nth_error text pos with
| Some d => if existsb (N.eqb d) cs then k (S pos) else None
| None => None
end
| Cat r1 r2 => m r1 pos (fun p => m r2 p k)
| Alt r1 r2 => orelse (m r1 pos k) (m r2 pos k)
| Rep r lo hi =>
times (m r) lo pos
      (fun p => upto (m r)
                  (match hi with
                   | None => length text
                   | Some h => h - lo
                   end) p k)
| WordB => if xorb (word_before pos) (word_at pos) then k pos else None
| NegLook r =>
match m r pos (fun p => Some p) with
| Some _ => None
| None => k pos
end
| Eps => k pos
end.

(** A match starting exactly at [start]; with [nonempty] the empty match
is refused and the engine backtracks (PCRE2_NOTEMPTY_ATSTART). *)
Definition match_at (r : regex) (nonempty : bool) (start : nat) : option nat :=
m r start (fun e => if nonempty && (e =? start) then None else Some e).

(** Leftmost match at or after [start]: [n] bounds the start positions
still to try. *)
Fixpoint search (r : regex) (n : nat) (start : nat) : option (nat * nat) :=
match match_at r false start with
| Some e => Some (start, e)
| None =>
match n with
| 0 => None
| S n' => search r n' (S start)
end
end.

Definition search_from (r : regex) (offset : nat) : option (nat * nat) :=
if offset <=? length text
then search r (length text - offset) offset
else None.

(** [QRegularExpression::globalMatch]: successive matches, each search
starting where the previous match ended; after an empty match the
engine first looks for a non-empty match anchored there and otherwise
moves one character on.  Results are (capturedStart, capturedLength). *)
Fixpoint global_loop (r : regex) (fuel : nat) (offset : nat) (prev_empty : bool)
: list (nat * nat) :=
match fuel with
| 0 => []
| S fuel' =>
let found :=
  if prev_empty then
    match match_at r true offset with
    | Some e => Some (offset, e)
    | None => search_from r (S offset)
    end
  else search_from r offset in
match found with
| None => []
| Some (s, e) => (s, e - s) :: global_loop r fuel' e (e =? s)
end
end.

Definition globalMatch (r : regex) : list (nat * nat) :=
global_loop r (2 * length text + 2) 0 false.

End Matcher.

(** [\w] without QRegularExpression::UseUnicodePropertiesOption (the source
  passes no pattern options): ASCII letters, digits and underscore. *)
Definition ascii_word (c : N) : bool :=
((48 <=? c) && (c <=? 57) || (65 <=? c) && (c <=? 90)
 || (97 <=? c) && (c <=? 122) || (c =? 95))%N.

End Regex.


(** ** Python values *)

(** The values a keyword payload is made of (what [json.load] produces);
    dictionary keys are strings. *)
Inductive pyval : Type :=
| PNone
| PBool (b : bool)
| PNum (z : Z)
| PStr (s : pystr)
| PList (l : list pyval)
| PDict (d : list (pystr * pyval)).

Definition dict := list (pystr * pyval).

(** [d.get(k)] *)
Fixpoint dict_get (k : pystr) (d : dict) : option pyval :=
  match d with
  | [] => None
  | (k', v) :: d' => if pystr_eqb k' k then Some v else dict_get k d'
  end.

(** [k in d] *)
Definition dict_mem (k : pystr) (d : dict) : bool :=
  match dict_get k d with Some _ => true | None => false end.

(** [d[k] = v]: an existing key keeps its place, a new one goes last. *)
Fixpoint dict_set (k : pystr) (v : pyval) (d : dict) : dict :=
  match d with
  | [] => [(k, v)]
  | (k', v') :: d' =>
    if pystr_eqb k' k then (k', v) :: d' else (k', v') :: dict_set k v d'
  end.

(** [del d[k]] *)
Definition dict_del (k : pystr) (d : dict) : dict :=
  filter (fun kv => negb (pystr_eqb (fst kv) k)) d.

(** [v[k]] for a string key: KeyError or TypeError is [None]. *)
Definition subscript (v : pyval) (k : pystr) : option pyval :=
  match v with
  | PDict d => dict_get k d
  | _ => None
  end.

(** [x == w] for a string [w]. *)
Definition eq_str (w : pystr) (x : pyval) : bool :=
  match x with
  | PStr s => pystr_eqb s w
  | _ => false
  end.

(** [w in v] for a string [w]: membership in a list, substring of a string,
    key of a dict; TypeError otherwise. *)
Definition contains (w : pystr) (v : pyval) : option bool :=
  match v with
  | PList l => Some (existsb (eq_str w) l)
  | PStr s => Some (is_substring w s)
  | PDict d => Some (dict_mem w d)
  | _ => None
  end.

(** [l.remove(w)] on a Python list: the first equal element goes. *)
Fixpoint remove_first (w : pystr) (l : list pyval) : list pyval :=
  match l with
  | [] => []
  | x :: l' => if eq_str w x then l' else x :: remove_first w l'
  end.

Definition k_words : pystr := u "words".
Definition k_color : pystr := u "color".

(** ** constants.py *)

Module SyntaxColors.
Definition VARIABLE := u "#00FFFF".
Definition KEYWORD_SIMPLE := u "#2196F3".
Definition KEYWORD_COMPLEX := u "#FF6B35".
Definition OPERATOR_SINGLE := u "#FFC107".
Definition OPERATOR_MULTI := u "#FF9800".
Definition HEAP_MEMORY := u "#E91E63".
Definition STRING_IO := u "#00E676".
Definition FUNCTION_NAME := u "#4CAF50".
Definition FUNCTION_CALL := u "#FF5722".
Definition EXIT_FORMAT := u "#9C27B0".
Definition PUNCTUATION := u "#9E9E9E".
End SyntaxColors.

(** ** core/keywords.py: MollangKeywords *)

Module MollangKeywords.
Import Regex.

Definition category (words : list string) (color : pystr) : pyval :=
  PDict [(k_words, PList (map (fun w => PStr (u w)) words)); (k_color, PStr color)].

Definition get_default_keywords : dict :=
  [ (u "제어_키워드", category ["은?행"; "털!자"; "돌!자"; "짓!자"] SyntaxColors.KEYWORD_COMPLEX);
    (u "점프_키워드", category ["가!자"; "가자!"] SyntaxColors.KEYWORD_COMPLEX);
    (u "입출력_키워드", category ["루"; "루?"; "루!"; "아"] SyntaxColors.KEYWORD_SIMPLE);
    (u "종료_키워드", category ["0ㅅ0"] SyntaxColors.EXIT_FORMAT);
    (u "함수명", category ["뭵뤩"; "뭵뤡"; "말랑"; "머리"; "무릎"; "망령"; "매립"; "무리"; "밀랍"]
                       SyntaxColors.FUNCTION_NAME) ]%string.

Definition l (s : string) : regex := lit (u s).
Definition plus (r : regex) : regex := Rep r 1 None.

(** (?:몰|모오+올|모오+울) *)
Definition variable : regex :=
  Alt (l "몰") (Alt (seq [l "모"; plus (l "오"); l "올"])
                   (seq [l "모"; plus (l "오"); l "울"])).

Definition complex_keywords : list regex :=
  [ l "은?행"; l "털!자"; l "돌!자"; l "짓!자"; l "가!자"; l "가자!"; l "루?"; l "루!" ].

Definition multi_operators : list regex :=
  [ Rep (l ".") 4 None;        (* \.{4,} *)
    Rep (l ".") 3 (Some 3);    (* \.{3}  *)
    Rep (l ".") 2 (Some 2);    (* \.{2}  *)
    Rep (l "?") 2 None;        (* \?{2,} *)
    Rep (l "!") 2 None ].      (* !{2,}  *)

Definition single_operators : list regex :=
  [ l "?"; l "!"; l "."; l "*"; l "~"; l "="; l "&" ].

Definition string_io : list regex :=
  [ seq [variable; l "~"; variable; l "루?"];                   (* ...루\?     *)
    seq [variable; l "~"; variable; l "루"; NegLook (l "?")] ]. (* ...루(?!\?) *)

Definition heap_memory : list regex :=
  [ seq [l "&"; variable; l "~"; variable];        (* &var~var       *)
    seq [variable; Cls (u "*~="); variable] ].     (* var[\*~=]var   *)

Definition float_format : list regex :=
  [ seq [plus (Cls (u "?!.,")); l "루!"] ].         (* [\?\!\.\,]+루! *)

Definition valid_category (data : pyval) : bool :=
  match data with
  | PDict d =>
    match dict_get k_words d, dict_get k_color d with
    | Some (PList _), Some (PStr _) => true
    | _, _ => false
    end
  | _ => false
  end.

Definition validate_keyword_data (keywords : pyval) : bool :=
  match keywords with
  | PDict d => forallb (fun kv => valid_category (snd kv)) d
  | _ => false
  end.

End MollangKeywords.

(** ** core/keywords.py: KeywordManager *)

Module KeywordManager.
Import MollangKeywords.

(** What a change callback does with the mapping it is given: it returns,
    or it raises an [Exception] carrying a message. Callbacks do not reach
    back into the manager. *)
Inductive outcome : Type :=
| Returns
| Raises (e : pystr).

Definition callback := dict -> outcome.

(** Observable effects, in order: a callback called with an argument, a
    line printed on standard output. *)
Inductive event : Type :=
| Called (i : nat) (arg : dict)
| Printed (line : pystr).

Record manager : Type := Manager {
  _keywords : dict;
  _change_callbacks : list callback;
  trace : list event
}.

(** State and exception monad of the manager's methods. *)
Definition M (A : Type) : Type := manager -> option (A * manager).

Definition ret {A} (a : A) : M A := fun st => Some (a, st).
Definition bind {A B} (c : M A) (f : A -> M B) : M B :=
  fun st => match c st with
            | Some (a, st') => f a st'
            | None => None
            end.
(** A step that raises when it has no value. *)
Definition try {A} (o : option A) : M A :=
  fun st => match o with Some a => Some (a, st) | None => None end.
Definition keywords : M dict := fun st => Some (_keywords st, st).
Definition set_dict (d : dict) : M unit :=
  fun st => Some (tt, Manager d (_change_callbacks st) (trace st)).
Definition emit (es : list event) : M unit :=
  fun st => Some (tt, Manager (_keywords st) (_change_callbacks st) (trace st ++ es)).

Notation "x <- c ;; k" := (bind c (fun x => k))
  (at level 61, c at next level, right associativity).
Notation "c ;; k" := (bind c (fun _ => k))
  (at level 61, right associativity).

Definition init : manager := Manager get_default_keywords [] [].

Definition get_keywords (st : manager) : dict := _keywords st.

(** The events of one pass over the callbacks, the first having index [i]. *)
Fixpoint notify_events (i : nat) (cbs : list callback) (kw : dict) : list event :=
  match cbs with
  | [] => []
  | cb :: rest =>
    Called i kw
      :: match cb kw with
         | Returns => []
         | Raises e => [Printed (u "키워드 변경 콜백 오류: " ++ e)]
         end
      ++ notify_events (S i) rest kw
  end.

Definition _notify_change : M unit :=
  fun st => emit (notify_events 0 (_change_callbacks st) (_keywords st)) st.

Definition set_keywords (new_keywords : pyval) : M bool :=
  if validate_keyword_data new_keywords then
    match new_keywords with
    | PDict d => set_dict d ;; _notify_change ;; ret true
    | _ => try None
    end
  else ret false.

Definition add_keyword (category word color : pystr) : M bool :=
  kw <- keywords ;;
  (if negb (dict_mem category kw)
   then set_dict (dict_set category
                    (PDict [(k_words, PList []); (k_color, PStr color)]) kw)
   else ret tt) ;;
  kw <- keywords ;;
  data <- try (dict_get category kw) ;;
  words <- try (subscript data k_words) ;;
  present <- try (contains word words) ;;
  if negb present then
    match data, words with
    | PDict d, PList ws =>
      set_dict (dict_set category
                  (PDict (dict_set k_color (PStr color)
                            (dict_set k_words (PList (ws ++ [PStr word])) d))) kw) ;;
      _notify_change ;;
      ret true
    | _, _ => try None
    end
  else ret false.

Definition remove_keyword (category word : pystr) : M bool :=
  kw <- keywords ;;
  member <- (if dict_mem category kw
             then data <- try (dict_get category kw) ;;
                  words <- try (subscript data k_words) ;;
                  try (contains word words)
             else ret false) ;;
  if (member : bool) then
    data <- try (dict_get category kw) ;;
    words <- try (subscript data k_words) ;;
    match data, words with
    | PDict d, PList ws =>
      let ws' := remove_first word ws in
      let kw' := dict_set category (PDict (dict_set k_words (PList ws') d)) kw in
      set_dict kw' ;;
      (match ws' with
       | [] => set_dict (dict_del category kw')
       | _ :: _ => ret tt
       end) ;;
      _notify_change ;;
      ret true
    | _, _ => try None
    end
  else ret false.

Definition update_keyword (old_category old_word new_category new_word new_color : pystr)
  : M bool :=
  remove_keyword old_category old_word ;;
  add_keyword new_category new_word new_color.

Definition on_change (cb : callback) : M unit :=
  fun st => Some (tt, Manager (_keywords st) (_change_callbacks st ++ [cb]) (trace st)).

End KeywordManager.

(** ** core/highlighter.py *)

(** A [QTextCharFormat] as the highlighter builds it: foreground colour and
    bold weight. *)
Record style : Type := Style { foreground : pystr; is_bold : bool }.

Record rule : Type := Rule { pattern : Regex.regex; format : style }.

(** [HighlightingRule(pattern, color, bold=True)] *)
Definition HighlightingRule (pattern : Regex.regex) (color : pystr) (bold : bool) : rule :=
  Rule pattern (Style color bold).

(** [\b] + [re.escape(word)] + [\b]: the literal word between two word
    boundaries. *)
Definition whole_word (word : pystr) : Regex.regex :=
  Regex.seq [Regex.WordB; Regex.lit word; Regex.WordB].

Module MollangHighlightingRules.
Import Regex MollangKeywords.

Definition rules_of (patterns : list regex) (color : pystr) : list rule :=
  map (fun p => HighlightingRule p color true) patterns.

Definition create_variable_rules : list rule :=
  rules_of [ seq [WordB; l "몰"; WordB];                        (* \\b몰\\b     *)
             seq [WordB; l "모"; plus (l "오"); l "올"; WordB];   (* \\b모오+올\\b *)
             seq [WordB; l "모"; plus (l "오"); l "울"; WordB] ]  (* \\b모오+울\\b *)
           SyntaxColors.VARIABLE.

Definition create_string_io_rules : list rule :=
  rules_of string_io SyntaxColors.STRING_IO.

Definition create_heap_memory_rules : list rule :=
  rules_of heap_memory SyntaxColors.HEAP_MEMORY.

Definition create_float_format_rules : list rule :=
  rules_of float_format SyntaxColors.EXIT_FORMAT.

Definition create_complex_keyword_rules : list rule :=
  rules_of complex_keywords SyntaxColors.KEYWORD_COMPLEX.

Definition create_operator_rules : list rule :=
  rules_of multi_operators SyntaxColors.OPERATOR_MULTI
  ++ rules_of single_operators SyntaxColors.OPERATOR_SINGLE.

(** The words of a value that is a list of strings. *)
Fixpoint strings_of (l : list pyval) : list pystr :=
  match l with
  | PStr s :: l' => s :: strings_of l'
  | _ => []
  end.

Definition function_names : list pystr :=
  match dict_get (u "함수명") get_default_keywords with
  | Some (PDict d) =>
    match dict_get k_words d with
    | Some (PList ws) => strings_of ws
    | _ => []
    end
  | _ => []
  end.

Definition create_function_rules : list rule :=
  map (fun name => HighlightingRule (whole_word name) SyntaxColors.FUNCTION_NAME true)
      function_names.

Definition create_simple_keyword_rules : list rule :=
  map (fun kw => HighlightingRule (whole_word kw) SyntaxColors.KEYWORD_SIMPLE true)
      [u "루"; u "아"]
  ++ [HighlightingRule (l "0ㅅ0") SyntaxColors.EXIT_FORMAT true].

Definition create_punctuation_rules : list rule :=
  [HighlightingRule (Cls (u "(),")) SyntaxColors.PUNCTUATION false].

End MollangHighlightingRules.

Module MollangSyntaxHighlighter.
Import Regex MollangKeywords MollangHighlightingRules.

(** [word in category_data.get('words', [])] over the built-in categories. *)
Definition _is_default_keyword (word : pystr) : bool :=
  existsb (fun kv =>
             match snd kv with
             | PDict d =>
               match dict_get k_words d with
               | Some (PList ws) => existsb (eq_str word) ws
               | _ => false
               end
             | _ => false
             end) get_default_keywords.

(** [for word in words]: the values a [for] loop draws from [v]. *)
Definition iterate (v : pyval) : option (list pyval) :=
  match v with
  | PList l => Some l
  | PStr s => Some (map (fun c => PStr [c]) s)
  | PDict d => Some (map (fun kv => PStr (fst kv)) d)
  | _ => None
  end.

(** The inner loop over the words of one category. [re.escape] raises on
    a word that is not a string, [QColor] on a colour that is not one. *)
Fixpoint custom_rules_of_words (ws : list pyval) (color : pyval) : option (list rule) :=
  match ws with
  | [] => Some []
  | PStr word :: ws' =>
    if negb (_is_default_keyword word) then
      match color, custom_rules_of_words ws' color with
      | PStr c, Some rs => Some (HighlightingRule (whole_word word) c true :: rs)
      | _, _ => None
      end
    else custom_rules_of_words ws' color
  | _ :: _ => None
  end.

(** [data.get('words', [])] and [data.get('color', KEYWORD_SIMPLE)] of one
    category, then its rules. *)
Definition custom_rules_of_category (data : pyval) : option (list rule) :=
  match data with
  | PDict d =>
    let words := match dict_get k_words d with Some w => w | None => PList [] end in
    let color := match dict_get k_color d with
                 | Some c => c
                 | None => PStr SyntaxColors.KEYWORD_SIMPLE
                 end in
    match iterate words with
    | Some ws => custom_rules_of_words ws color
    | None => None
    end
  | _ => None
  end.

Fixpoint _add_custom_keyword_rules (keywords : dict) : option (list rule) :=
  match keywords with
  | [] => Some []
  | (_, data) :: rest =>
    match custom_rules_of_category data, _add_custom_keyword_rules rest with
    | Some rs, Some rs' => Some (rs ++ rs')
    | _, _ => None
    end
  end.

Definition builtin_rules : list rule :=
  create_string_io_rules
  ++ create_heap_memory_rules
  ++ create_float_format_rules
  ++ create_complex_keyword_rules
  ++ create_operator_rules
  ++ create_function_rules
  ++ create_variable_rules
  ++ create_simple_keyword_rules
  ++ create_punctuation_rules.

Definition _setup_highlighting_rules (keywords : dict) : option (list rule) :=
  match _add_custom_keyword_rules keywords with
  | Some custom => Some (builtin_rules ++ custom)
  | None => None
  end.

(** [QSyntaxHighlighter::setFormat(start, count, format)] on the formats
    of the current block, one slot per character: nothing happens when
    [start] lies outside the block, and the range is cut at its end. *)
Definition setFormat (start count : nat) (fmt : style)
           (formats : list (option style)) : list (option style) :=
  if length formats <=? start then formats
  else
    let stop := Nat.min (start + count) (length formats) in
    firstn start formats ++ repeat (Some fmt) (stop - start) ++ skipn stop formats.

Section Highlight.
Variable is_word : N -> bool.

(** The [while match_iterator.hasNext()] loop of one rule. *)
Definition apply_rule (text : pystr) (formats : list (option style)) (r : rule)
  : list (option style) :=
  fold_left (fun fs sl => setFormat (fst sl) (snd sl) (format r) fs)
            (globalMatch is_word text (pattern r)) formats.

(** [highlightBlock(text)] with the rule list [rules]: the format of
    every character of the block afterwards; [None] is a character no
    rule touched. *)
Definition highlightBlock_with (rules : list rule) (text : pystr) : list (option style) :=
  fold_left (apply_rule text) rules (repeat None (length text)).
End Highlight.

Definition highlightBlock := highlightBlock_with ascii_word.

End MollangSyntaxHighlighter.

(** ** core/highlighter.py: the highlighter object and its factory *)

Module Highlighter.
Import MollangKeywords MollangSyntaxHighlighter.

(** The two fields of a [MollangSyntaxHighlighter]. *)
Record highlighter : Type := Make {
  _keywords : dict;
  highlighting_rules : list rule
}.

(** [__init__]: the built-in keywords and the rules compiled from them. *)
Definition init : option highlighter :=
  match _setup_highlighting_rules get_default_keywords with
  | Some rs => Some (Make get_default_keywords rs)
  | None => None
  end.

(** [update_keywords(new_keywords)]: a payload that fails validation is
    ignored; otherwise it is stored and the rule list is rebuilt, which
    raises when the compiler does. *)
Definition update_keywords (new_keywords : pyval) (h : highlighter) : option highlighter :=
  if validate_keyword_data new_keywords then
    match new_keywords with
    | PDict d =>
      match _setup_highlighting_rules d with
      | Some rs => Some (Make d rs)
      | None => None
      end
    | _ => None
    end
  else Some h.

Definition get_keywords (h : highlighter) : dict := _keywords h.

(** Python truth value of a payload. *)
Definition truthy (v : pyval) : bool :=
  match v with
  | PNone => false
  | PBool b => b
  | PNum z => negb (Z.eqb z 0)
  | PStr s => match s with [] => false | _ :: _ => true end
  | PList l => match l with [] => false | _ :: _ => true end
  | PDict d => match d with [] => false | _ :: _ => true end
  end.

(** [HighlighterFactory.create_mollang_highlighter(parent, initial_keywords)];
    [PNone] is the default argument. *)
Definition create_mollang_highlighter (initial_keywords : pyval) : option highlighter :=
  match init with
  | Some h =>
    if truthy initial_keywords && validate_keyword_data initial_keywords
    then update_keywords initial_keywords h
    else Some h
  | None => None
  end.

End Highlighter.

(** ** core/config.py *)

Module Config.

Section Validator.

(** Whether Python's [int(s, 16)] returns for [s] instead of raising
    ValueError; the built-in is not part of the repository. *)
Variable int16_ok : pystr -> bool.

(** [ConfigValidator.is_valid_color] *)
Definition is_valid_color (color : pyval) : bool :=
  match color with
  | PStr s =>
    if is_prefix (u "#") s && (length s =? 7)
    then int16_ok (tl s)
    else false
  | _ => false
  end.

(** [ConfigValidator.is_valid_keyword_category] *)
Definition is_valid_keyword_category (category_data : pyval) : bool :=
  match category_data with
  | PDict d =>
    if negb (dict_mem k_words d && dict_mem k_color d) then false
    else
      match dict_get k_words d with
      | Some (PList ws) =>
        if negb (forallb (fun w => match w with PStr _ => true | _ => false end) ws)
        then false
        else match dict_get k_color d with
             | Some color => is_valid_color color
             | None => is_valid_color PNone
             end
      | _ => false
      end
  | _ => false
  end.

(** The loop of [ConfigValidator.validate_keywords_data] over the
    categories; the names are strings already. *)
Fixpoint validate_categories (d : dict) : bool * option pystr :=
  match d with
  | [] => (true, None)
  | (category_name, category_data) :: rest =>
    if is_valid_keyword_category category_data
    then validate_categories rest
    else (false, Some (u "유효하지 않은 카테고리 데이터: " ++ category_name))
  end.

(** [ConfigValidator.validate_keywords_data]: (is_valid, error_message). *)
Definition validate_keywords_data (keywords : pyval) : bool * option pystr :=
  match keywords with
  | PDict d => validate_categories d
  | _ => (false, Some (u "키워드 데이터는 딕셔너리여야 합니다."))
  end.

(** [ConfigService.load_keywords_with_validation], given what
    [ConfigManager.load_keywords] read: the parsed file, or the message of
    the failure. Result: (success, keywords, message). *)
Definition load_keywords_with_validation (loaded : pyval + pystr)
  : bool * option pyval * pystr :=
  match loaded with
  | inr error_msg => (false, None, u "불러오기 실패: " ++ error_msg)
  | inl keywords =>
    match validate_keywords_data keywords with
    | (true, _) => (true, Some keywords, u "설정 불러오기 완료!")
    | (false, error_msg) =>
      (false, None,
       u "유효하지 않은 설정 파일: "
         ++ match error_msg with Some e => e | None => u "None" end)
    end
  end.

(** [MainWindowController.load_config], on the keyword manager; the
    message boxes are left out. *)
Definition load_config (loaded : pyval + pystr) : KeywordManager.M unit :=
  match load_keywords_with_validation loaded with
  | (true, Some keywords, _) =>
    KeywordManager.bind (KeywordManager.set_keywords keywords)
                        (fun _ => KeywordManager.ret tt)
  | _ => KeywordManager.ret tt
  end.

End Validator.

(** A hexadecimal digit. *)
Definition is_hex_digit (c : N) : bool :=
  ((48 <=? c) && (c <=? 57) || (65 <=? c) && (c <=? 70) || (97 <=? c) && (c <=? 102))%N.

End Config.

(** ** Vocabulary of the statements *)

(** The registry invariant: the mapping passes [validate_keyword_data]. *)
Definition valid_registry (kw : dict) : Prop :=
  MollangKeywords.validate_keyword_data (PDict kw) = true.

(** The words stored under [category], when it exists and holds a list. *)
Definition words_of (kw : dict) (category : pystr) : option (list pyval) :=
  match dict_get category kw with
  | Some (PDict d) =>
    match dict_get k_words d with
    | Some (PList ws) => Some ws
    | _ => None
    end
  | _ => None
  end.

(** The pair ([category], [word]) exists in the registry. *)
Definition has_keyword (kw : dict) (category word : pystr) : bool :=
  match words_of kw category with
  | Some ws => existsb (eq_str word) ws
  | None => false
  end.

(** The calls in a trace, and those of the callback of index [i]. *)
Definition is_call (e : KeywordManager.event) : bool :=
  match e with KeywordManager.Called _ _ => true | _ => false end.

Definition is_call_of (i : nat) (e : KeywordManager.event) : bool :=
  match e with KeywordManager.Called j _ => j =? i | _ => false end.

(** The single-step mutations of the registry. *)
Inductive mutation : Type :=
| MSet (new_keywords : pyval)
| MAdd (category word color : pystr)
| MRemove (category word : pystr).

Definition run (mu : mutation) : KeywordManager.M bool :=
  match mu with
  | MSet p => KeywordManager.set_keywords p
  | MAdd c w col => KeywordManager.add_keyword c w col
  | MRemove c w => KeywordManager.remove_keyword c w
  end.

(** A match (start, length) of rule [r] in [text] covers the character at
    offset [p]. *)
Definition covers (is_word : N -> bool) (text : pystr) (r : rule) (p : nat) : bool :=
  existsb (fun sl => (fst sl <=? p) && (p <? fst sl + snd sl))
          (Regex.globalMatch is_word text (pattern r)).

(** The rule list the highlighter starts with. *)
Definition default_rules : list rule :=
  match MollangSyntaxHighlighter._setup_highlighting_rules
          MollangKeywords.get_default_keywords with
  | Some rs => rs
  | None => []
  end.

(** Every word of every category is a string. *)
Definition is_str (v : pyval) : bool :=
  match v with PStr _ => true | _ => false end.

Definition words_are_strings (kw : dict) : bool :=
  forallb (fun kv => match snd kv with
                     | PDict d =>
                       match dict_get k_words d with
                       | Some (PList ws) => forallb is_str ws
                       | _ => true
                       end
                     | _ => true
                     end) kw.

(** [word] is listed in some category of [kw] whose colour is [color]. *)
Definition listed_with_color (kw : dict) (word color : pystr) : Prop :=
  exists category d ws,
    In (category, PDict d) kw
    /\ dict_get k_words d = Some (PList ws)
    /\ In (PStr word) ws
    /\ dict_get k_color d = Some (PStr color).

(** [word] is listed in some category of [kw]. *)
Definition listed (kw : dict) (word : pystr) : Prop :=
  exists category d ws,
    In (category, PDict d) kw
    /\ dict_get k_words d = Some (PList ws)
    /\ In (PStr word) ws.

(** Two matchers give the same result whenever their continuations do. *)
Definition respects (body1 body2 : nat -> (nat -> option nat) -> option nat) : Prop :=
  forall pos k k', (forall p, k p = k' p) -> body1 pos k = body2 pos k'.

(** A matcher started inside a text of length [len] hands its continuation
    a position between the start and the end of the text. *)
Definition bounded (len : nat) (body : nat -> (nat -> option nat) -> option nat) : Prop :=
  forall pos k e, pos <= len -> body pos k = Some e ->
                  exists p, pos <= p <= len /\ k p = Some e.

(** The rule list of a highlighter is the one compiled from the keywords
    it holds. *)
Definition in_step (h : Highlighter.highlighter) : Prop :=
  MollangSyntaxHighlighter._setup_highlighting_rules (Highlighter._keywords h)
  = Some (Highlighter.highlighting_rules h).

(** A stand-in for [int(s, 16)] on the strings met here: it returns on a
    non-empty string of hexadecimal digits. *)
Definition hex_digits_ok (s : pystr) : bool :=
  match s with [] => false | _ :: _ => forallb Config.is_hex_digit s end.

(** What the registry's validation refuses, said without the validator: a
    category that is not a mapping, or has no [words] key, or no [color]
    key, or whose words are not a list, or whose colour is not a string. *)
Definition ill_shaped_category (data : pyval) : Prop :=
  (forall d, data <> PDict d)
  \/ exists d,
      data = PDict d
      /\ (dict_get k_words d = None
          \/ dict_get k_color d = None
          \/ (exists v, dict_get k_words d = Some v /\ forall l, v <> PList l)
          \/ (exists v, dict_get k_color d = Some v /\ forall s, v <> PStr s)).

(** A payload that is not a mapping or has such a category. *)
Definition ill_shaped (payload : pyval) : Prop :=
  (forall d, payload <> PDict d)
  \/ exists d category data,
      payload = PDict d /\ In (category, data) d /\ ill_shaped_category data.

(** ** Sample inputs *)

(** [{"X": {"words": ["a", "a"], "color": "#ZZZZZZ"}}] *)
Definition payload_bad_color : pyval :=
  PDict [(u "X", PDict [(k_words, PList [PStr (u "a"); PStr (u "a")]);
                        (k_color, PStr (u "#ZZZZZZ"))])].

(** [{"X": {"words": ["a", "a"]}}]: the colour is missing. *)
Definition payload_no_color : pyval :=
  PDict [(u "X", PDict [(k_words, PList [PStr (u "a"); PStr (u "a")])])].

(** A manager with the built-in keywords and two callbacks, the first of
    which raises. *)
Definition two_observers : KeywordManager.manager :=
  KeywordManager.Manager MollangKeywords.get_default_keywords
    [ (fun _ => KeywordManager.Raises (u "boom")); (fun _ => KeywordManager.Returns) ]
    [].

(** * Properties *)

(** ** Dictionaries *)

Lemma pystr_eqb_eq (a b : pystr) : pystr_eqb a b = true <-> a = b.
Proof.
  unfold pystr_eqb. destruct (list_eq_dec N.eq_dec a b); split; congruence.
Qed.

Lemma pystr_eqb_refl (a : pystr) : pystr_eqb a a = true.
Proof. now apply pystr_eqb_eq. Qed.

Lemma pystr_eqb_neq (a b : pystr) : a <> b -> pystr_eqb a b = false.
Proof.
  intros H. destruct (pystr_eqb a b) eqn:E; [|reflexivity].
  apply pystr_eqb_eq in E. contradiction.
Qed.

Lemma dict_get_set_same k v d : dict_get k (dict_set k v d) = Some v.
Proof.
  induction d as [|[k' v'] d IH]; simpl.
  - now rewrite pystr_eqb_refl.
  - destruct (pystr_eqb k' k) eqn:E; simpl; rewrite E; auto.
Qed.

Lemma dict_get_set_other k k' v d :
  k <> k' -> dict_get k (dict_set k' v d) = dict_get k d.
Proof.
  intros Hne. induction d as [|[k0 v0] d IH]; simpl.
  - rewrite pystr_eqb_neq; auto.
  - destruct (pystr_eqb k0 k') eqn:E; simpl.
    + apply pystr_eqb_eq in E. subst k0. rewrite pystr_eqb_neq; auto.
    + now rewrite IH.
Qed.

Lemma dict_get_del_same k d : dict_get k (dict_del k d) = None.
Proof.
  unfold dict_del. induction d as [|[k' v'] d IH]; simpl; auto.
  destruct (pystr_eqb k' k) eqn:E; simpl; auto. now rewrite E.
Qed.

Lemma dict_get_del_other k k' d :
  k <> k' -> dict_get k (dict_del k' d) = dict_get k d.
Proof.
  intros Hne. unfold dict_del. induction d as [|[k0 v0] d IH]; simpl; auto.
  destruct (pystr_eqb k0 k') eqn:E; simpl.
  - apply pystr_eqb_eq in E. subst k0. rewrite pystr_eqb_neq; auto.
  - now rewrite IH.
Qed.

Lemma dict_get_In k d v : dict_get k d = Some v -> In (k, v) d.
Proof.
  induction d as [|[k' v'] d IH]; simpl; [discriminate|].
  destruct (pystr_eqb k' k) eqn:E.
  - apply pystr_eqb_eq in E. intros [= ->]. subst. now left.
  - intros H. right. auto.
Qed.

Lemma k_words_color : k_words <> k_color.
Proof. discriminate. Qed.

(** ** The registry *)

Section Registry.
Import KeywordManager MollangKeywords.

Lemma valid_lookup kw c data :
  valid_registry kw -> dict_get c kw = Some data ->
  exists d ws col, data = PDict d /\ dict_get k_words d = Some (PList ws)
                   /\ dict_get k_color d = Some (PStr col).
Proof.
  unfold valid_registry, validate_keyword_data. intros Hv Hg.
  apply dict_get_In in Hg.
  rewrite forallb_forall in Hv. specialize (Hv _ Hg).
  cbn [snd] in Hv. unfold valid_category in Hv.
  destruct data as [ | | | | |d]; try discriminate.
  destruct (dict_get k_words d) as [[ | | | |ws| ]|] eqn:Ew; try discriminate.
  destruct (dict_get k_color d) as [[ | | |col| | ]|] eqn:Ec; try discriminate.
  now exists d, ws, col.
Qed.

Lemma notify_run st :
  _notify_change st
  = Some (tt, Manager (_keywords st) (_change_callbacks st)
                      (trace st ++ notify_events 0 (_change_callbacks st) (_keywords st))).
Proof. reflexivity. Qed.

Lemma calls_of_notify i cbs kw :
  filter is_call (notify_events i cbs kw) = map (fun j => Called j kw) (seq i (length cbs)).
Proof.
  revert i. induction cbs as [|cb cbs IH]; intros i; simpl; [reflexivity|].
  f_equal. rewrite filter_app, IH. now destruct (cb kw).
Qed.

Lemma calls_of_one i j cbs kw :
  filter (is_call_of j) (notify_events i cbs kw)
  = if (i <=? j) && (j <? i + length cbs) then [Called j kw] else [].
Proof.
  revert i. induction cbs as [|cb cbs IH]; intros i;
    cbn [notify_events length filter is_call_of].
  - destruct (Nat.leb_spec i j), (Nat.ltb_spec j (i + 0)); cbn [andb]; auto; lia.
  - assert (Hrep : forall o : outcome,
               filter (is_call_of j)
                      match o with
                      | Returns => []
                      | Raises e => [Printed (u "키워드 변경 콜백 오류: " ++ e)]
                      end = []) by now intros [|e].
    rewrite filter_app, Hrep, IH. cbn [app].
    destruct (Nat.eqb_spec i j), (Nat.leb_spec i j),
      (Nat.ltb_spec j (i + S (length cbs))), (Nat.leb_spec (S i) j),
      (Nat.ltb_spec j (S i + length cbs)); cbn [andb]; subst; auto; lia.
Qed.

Lemma reports_of_notify i cbs kw n cb e :
  nth_error cbs n = Some cb -> cb kw = Raises e ->
  In (Printed (u "키워드 변경 콜백 오류: " ++ e)) (notify_events i cbs kw).
Proof.
  revert i n. induction cbs as [|cb0 cbs IH]; intros i n Hn He.
  - now destruct n.
  - destruct n as [|n]; simpl in Hn |- *.
    + injection Hn as ->. rewrite He. right. now left.
    + right. apply in_or_app. right. eauto.
Qed.

Ltac unfold_ops :=
  unfold run, set_keywords, add_keyword, remove_keyword, update_keyword,
    bind, ret, try, keywords, set_dict, _notify_change, emit in *;
  cbn [_keywords _change_callbacks trace] in *.

Ltac split_match :=
  match goal with
  | H : context [match ?x with _ => _ end] |- _ => destruct x eqn:?
  | |- context [match ?x with _ => _ end] => destruct x eqn:?
  end.

Ltac inv_some :=
  repeat match goal with
         | H : Some _ = Some _ |- _ => inversion H; subst; clear H
         | H : None = Some _ |- _ => discriminate H
         | H : Some _ = None |- _ => discriminate H
         end.

(** A single-step mutation that reports success has notified every
    callback once, after the change; one that reports failure has done
    nothing. *)
Lemma run_outcome mu st b st' :
  run mu st = Some (b, st') ->
  if b then
    _change_callbacks st' = _change_callbacks st
    /\ trace st' = trace st ++ notify_events 0 (_change_callbacks st) (_keywords st')
  else st' = st.
Proof.
  destruct st as [kw cbs tr]. destruct mu; unfold_ops; intros H;
    repeat (split_match; inv_some; cbn [_keywords _change_callbacks trace] in * );
    inv_some; cbn [_keywords _change_callbacks trace]; auto.
  (* a category created by this call has no word yet, so the add goes on *)
  rewrite dict_get_set_same in *. inv_some.
  match goal with H : subscript _ _ = _ |- _ => vm_compute in H end. inv_some.
  match goal with H : contains _ _ = _ |- _ => cbn in H end. inv_some.
  discriminate.
Qed.

(** What a mutation returns and what it leaves in the registry do not
    depend on the callbacks or on what they do. *)
Lemma run_frame mu kw cbs tr cbs' tr' :
  match run mu (Manager kw cbs tr), run mu (Manager kw cbs' tr') with
  | Some (b, st), Some (b', st') => b = b' /\ _keywords st = _keywords st'
  | None, None => True
  | _, _ => False
  end.
Proof.
  destruct mu; unfold_ops;
    repeat (split_match; inv_some; cbn [_keywords _change_callbacks trace] in * );
    inv_some; cbn [_keywords _change_callbacks trace]; auto;
    try discriminate; try congruence; try (split; congruence).
Qed.

Lemma remove_missing st c w :
  valid_registry (_keywords st) -> has_keyword (_keywords st) c w = false ->
  remove_keyword c w st = Some (false, st).
Proof.
  destruct st as [kw cbs tr]. cbn [_keywords]. intros Hv Hp.
  unfold has_keyword, words_of in Hp. unfold_ops. unfold dict_mem.
  destruct (dict_get c kw) as [data|] eqn:Eg; [|reflexivity].
  destruct (valid_lookup _ _ _ Hv Eg) as (d & ws & col & -> & Ew & _).
  cbn [subscript]. rewrite Ew in *. cbn [contains]. now rewrite Hp.
Qed.

Lemma add_present st c w col :
  valid_registry (_keywords st) -> has_keyword (_keywords st) c w = true ->
  add_keyword c w col st = Some (false, st).
Proof.
  destruct st as [kw cbs tr]. cbn [_keywords]. intros Hv Hp.
  unfold has_keyword, words_of in Hp. unfold_ops. unfold dict_mem.
  destruct (dict_get c kw) as [data|] eqn:Eg; [|discriminate].
  destruct (valid_lookup _ _ _ Hv Eg) as (d & ws & col' & -> & Ew & _).
  cbn [negb _keywords]. rewrite Eg. cbn [subscript]. rewrite Ew in *.
  cbn [contains]. now rewrite Hp.
Qed.

Lemma has_keyword_added kw c w col d ws :
  has_keyword
    (dict_set c (PDict (dict_set k_color (PStr col)
                          (dict_set k_words (PList (ws ++ [PStr w])) d))) kw)
    c w = true.
Proof.
  unfold has_keyword, words_of. rewrite dict_get_set_same.
  rewrite dict_get_set_other by apply k_words_color.
  rewrite dict_get_set_same, existsb_app. cbn [existsb eq_str].
  rewrite pystr_eqb_refl. now rewrite orb_true_r.
Qed.

Lemma add_absent st c w col :
  valid_registry (_keywords st) -> has_keyword (_keywords st) c w = false ->
  exists st', add_keyword c w col st = Some (true, st')
              /\ has_keyword (_keywords st') c w = true.
Proof.
  destruct st as [kw cbs tr]. cbn [_keywords]. intros Hv Hp.
  unfold has_keyword, words_of in Hp. unfold_ops. unfold dict_mem.
  destruct (dict_get c kw) as [data|] eqn:Eg.
  - destruct (valid_lookup _ _ _ Hv Eg) as (d & ws & col' & -> & Ew & _).
    cbn [negb _keywords]. rewrite Eg. cbn [subscript]. rewrite Ew in *.
    cbn [contains]. rewrite Hp. cbn [negb].
    eexists. split; [reflexivity|]. cbn [_keywords]. apply has_keyword_added.
  - cbn [negb _keywords]. rewrite dict_get_set_same.
    replace (subscript (PDict [(k_words, PList []); (k_color, PStr col)]) k_words)
      with (Some (PList [])) by reflexivity.
    cbn [contains existsb negb].
    eexists. split; [reflexivity|]. cbn [_keywords]. apply has_keyword_added.
Qed.

Lemma set_keywords_accepts st d :
  valid_registry d ->
  set_keywords (PDict d) st
  = Some (true, Manager d (_change_callbacks st)
                        (trace st ++ notify_events 0 (_change_callbacks st) d)).
Proof.
  unfold valid_registry, set_keywords. intros ->. reflexivity.
Qed.

Lemma valid_category_false_iff (data : pyval) :
  valid_category data = false <-> ill_shaped_category data.
Proof.
  unfold valid_category, ill_shaped_category. split.
  - intros H. destruct data as [ |b|z|s|l|d];
      try (left; intros d' E; discriminate E).
    right. exists d. split; [reflexivity|].
    destruct (dict_get k_words d) as [w|] eqn:Ew; [|now left].
    destruct (dict_get k_color d) as [c|] eqn:Ec; [|right; now left].
    destruct w as [ | | | |ws| ];
      try (right; right; left; eexists; split; [reflexivity|intros l E; discriminate E]).
    destruct c as [ | | |col| | ]; try discriminate H;
      right; right; right; eexists; (split; [reflexivity|intros s E; discriminate E]).
  - intros [Hn|(d & -> & H)].
    + destruct data as [ | | | | |d]; try reflexivity. now destruct (Hn d).
    + destruct H as [H|[H|[(v & Hv & Hn)|(v & Hv & Hn)]]].
      * now rewrite H.
      * rewrite H. now destruct (dict_get k_words d) as [[ | | | | | ]|].
      * rewrite Hv. destruct v as [ | | | |ws| ]; try reflexivity. now destruct (Hn ws).
      * rewrite Hv. destruct (dict_get k_words d) as [[ | | | | | ]|]; try reflexivity.
        destruct v as [ | | |col| | ]; try reflexivity. now destruct (Hn col).
Qed.

Lemma validate_false_iff (payload : pyval) :
  validate_keyword_data payload = false <-> ill_shaped payload.
Proof.
  unfold validate_keyword_data, ill_shaped. split.
  - intros H. destruct payload as [ | | | | |d];
      try (left; intros d' E; discriminate E).
    right. exists d.
    induction d as [|[c data] d IH]; cbn [forallb snd] in H; [discriminate|].
    destruct (valid_category data) eqn:Ev; cbn [andb] in H.
    + destruct (IH H) as (c' & data' & _ & Hin & Hill).
      exists c', data'. repeat split; auto. now right.
    + exists c, data. repeat split; [now left|]. now apply valid_category_false_iff.
  - intros [Hn|(d & c & data & -> & Hin & Hill)].
    + destruct payload as [ | | | | |d]; try reflexivity. now destruct (Hn d).
    + apply valid_category_false_iff in Hill.
      destruct (forallb (fun kv => valid_category (snd kv)) d) eqn:E; [|reflexivity].
      rewrite forallb_forall in E. specialize (E _ Hin). cbn [snd] in E. congruence.
Qed.

(** C4 (as amended). [set] refuses a payload on its shape only. A payload
    that is not a mapping, or in which some category is not a mapping,
    lacks [words] or [color], has words that are not a list or a colour
    that is not a string, gives a failure result and leaves registry,
    callbacks and trace as they were. Every other payload is a mapping that
    [set] accepts whatever its colours and words are: it returns success,
    the mapping replaces the registry and the callbacks are notified. *)
Theorem C4_set_rejects_ill_shaped_payload (st : manager) (payload : pyval) :
  (ill_shaped payload -> set_keywords payload st = Some (false, st))
  /\ (~ ill_shaped payload ->
      exists d,
        payload = PDict d
        /\ set_keywords payload st
           = Some (true, Manager d (_change_callbacks st)
                                 (trace st ++ notify_events 0 (_change_callbacks st) d))).
Proof.
  split.
  - intros H. apply validate_false_iff in H. unfold set_keywords. now rewrite H.
  - intros H. destruct (validate_keyword_data payload) eqn:Ev.
    + destruct payload as [ | | | | |d]; try discriminate Ev.
      exists d. split; [reflexivity|]. now apply set_keywords_accepts.
    + apply validate_false_iff in Ev. contradiction.
Qed.

Lemma C4_witness :
  set_keywords (PList []) two_observers = Some (false, two_observers)
  /\ set_keywords (PDict [(u "X", PStr (u "a"))]) two_observers
     = Some (false, two_observers)
  /\ set_keywords (PDict [(u "X", PDict [(k_color, PStr (u "#FFFFFF"))])]) two_observers
     = Some (false, two_observers)
  /\ set_keywords payload_no_color two_observers = Some (false, two_observers)
  /\ set_keywords (PDict [(u "제어", category ["은?행"]%string (u "#FF6B35"));
                          (u "X", PDict [(k_words, PStr (u "a"));
                                         (k_color, PStr (u "#FFFFFF"))])])
                  two_observers
     = Some (false, two_observers)
  /\ set_keywords (PDict [(u "X", PDict [(k_words, PList [PStr (u "a")]);
                                         (k_color, PNum 255)])]) two_observers
     = Some (false, two_observers).
Proof.
  split.
  { apply (C4_set_rejects_ill_shaped_payload two_observers (PList [])).
    left. intros d E. discriminate E. }
  split.
  { apply (C4_set_rejects_ill_shaped_payload two_observers).
    right. eexists _, _, _. split; [reflexivity|]. split; [now left|].
    left. intros d E. discriminate E. }
  split.
  { apply (C4_set_rejects_ill_shaped_payload two_observers).
    right. eexists _, _, _. split; [reflexivity|]. split; [now left|].
    right. eexists. split; [reflexivity|]. left. reflexivity. }
  split.
  { apply (C4_set_rejects_ill_shaped_payload two_observers payload_no_color).
    right. eexists _, _, _. split; [reflexivity|]. split; [now left|].
    right. eexists. split; [reflexivity|]. right. left. reflexivity. }
  split.
  { apply (C4_set_rejects_ill_shaped_payload two_observers).
    right. eexists _, _, _. split; [reflexivity|]. split; [right; now left|].
    right. eexists. split; [reflexivity|]. right. right. left.
    eexists. split; [reflexivity|]. intros ws E. discriminate E. }
  apply (C4_set_rejects_ill_shaped_payload two_observers).
  right. eexists _, _, _. split; [reflexivity|]. split; [now left|].
  right. eexists. split; [reflexivity|]. right. right. right.
  eexists. split; [reflexivity|]. intros col E. discriminate E.
Defined.

(** C4 as stated fails: the payload with the colour [#ZZZZZZ] and a
    repeated word passes validation and replaces the registry. *)
Lemma C4_counterexample :
  validate_keyword_data payload_bad_color = true
  /\ exists st', set_keywords payload_bad_color init = Some (true, st')
                 /\ PDict (_keywords st') = payload_bad_color
                 /\ _keywords st' <> _keywords init.
Proof.
  split; [reflexivity|]. eexists. split; [reflexivity|]. split; [reflexivity|].
  intros H. apply (f_equal (@length _)) in H. discriminate H.
Qed.

(** C6 (as amended). When the pair ([old_category], [old_word]) is not in
    a valid registry, the remove step of [update] does nothing (no change,
    no notification) and the add step runs on the unchanged registry:
    [update] returns what [add] returns. It fails, leaving the state as it
    was, when the new word is already in the new category, and otherwise
    succeeds with the new word stored and the callbacks notified once. *)
Theorem C6_update_of_missing_keyword_is_add
        (st : manager) (old_category old_word new_category new_word new_color : pystr) :
  valid_registry (_keywords st) ->
  has_keyword (_keywords st) old_category old_word = false ->
  remove_keyword old_category old_word st = Some (false, st)
  /\ update_keyword old_category old_word new_category new_word new_color st
     = add_keyword new_category new_word new_color st
  /\ (has_keyword (_keywords st) new_category new_word = true ->
      update_keyword old_category old_word new_category new_word new_color st
      = Some (false, st))
  /\ (has_keyword (_keywords st) new_category new_word = false ->
      exists st',
        update_keyword old_category old_word new_category new_word new_color st
        = Some (true, st')
        /\ has_keyword (_keywords st') new_category new_word = true
        /\ trace st' = trace st ++ notify_events 0 (_change_callbacks st) (_keywords st')).
Proof.
  intros Hv Hmiss.
  pose proof (remove_missing st old_category old_word Hv Hmiss) as Hrm.
  assert (Hup : update_keyword old_category old_word new_category new_word new_color st
                = add_keyword new_category new_word new_color st).
  { unfold update_keyword, bind. now rewrite Hrm. }
  repeat split; auto.
  - intros Hp. rewrite Hup. now apply add_present.
  - intros Hp. rewrite Hup.
    destruct (add_absent st new_category new_word new_color Hv Hp) as (st' & Ha & Hk).
    exists st'. repeat split; auto.
    apply (run_outcome (MAdd new_category new_word new_color) st) in Ha. apply Ha.
Qed.

Lemma C6_witness :
  valid_registry (_keywords init)
  /\ has_keyword (_keywords init) (u "없는_분류") (u "없음") = false
  /\ update_keyword (u "없는_분류") (u "없음") (u "새_분류") (u "새말") (u "#FFFFFF") init
     = add_keyword (u "새_분류") (u "새말") (u "#FFFFFF") init.
Proof.
  split; [reflexivity|]. split; [reflexivity|].
  apply (C6_update_of_missing_keyword_is_add
           init (u "없는_분류") (u "없음") (u "새_분류") (u "새말") (u "#FFFFFF"));
    reflexivity.
Defined.

(** C6 as stated fails: on the built-in registry an [update] whose old
    pair does not exist returns success and stores the new keyword. *)
Lemma C6_counterexample :
  has_keyword (_keywords init) (u "없는_분류") (u "없음") = false
  /\ exists st',
       update_keyword (u "없는_분류") (u "없음") (u "새_분류") (u "새말") (u "#FFFFFF") init
       = Some (true, st')
       /\ has_keyword (_keywords st') (u "새_분류") (u "새말") = true
       /\ _keywords st' <> _keywords init.
Proof.
  split; [reflexivity|]. eexists. split; [reflexivity|]. split; [reflexivity|].
  intros H. apply (f_equal (@length _)) in H. discriminate H.
Qed.

Lemma eq_str_is (w : pystr) (x : pyval) : eq_str w x = true <-> x = PStr w.
Proof.
  destruct x; cbn [eq_str]; try (split; discriminate).
  rewrite pystr_eqb_eq. split; congruence.
Qed.

(** [remove_first] takes out the first occurrence and nothing else. *)
Lemma remove_first_split (w : pystr) (pre post : list pyval) :
  ~ In (PStr w) pre -> remove_first w (pre ++ PStr w :: post) = pre ++ post.
Proof.
  induction pre as [|x pre IH]; intros Hn; cbn [app remove_first].
  - cbn [eq_str]. now rewrite pystr_eqb_refl.
  - destruct (eq_str w x) eqn:E.
    + apply eq_str_is in E. subst x. exfalso. apply Hn. now left.
    + f_equal. apply IH. intros H. apply Hn. now right.
Qed.

Lemma first_occurrence (w : pystr) (ws : list pyval) :
  existsb (eq_str w) ws = true ->
  exists pre post, ws = pre ++ PStr w :: post /\ ~ In (PStr w) pre.
Proof.
  induction ws as [|x ws IH]; cbn [existsb]; [discriminate|].
  destruct (eq_str w x) eqn:E; cbn [orb].
  - intros _. apply eq_str_is in E. subst x. exists [], ws. split; [reflexivity|].
    intros [].
  - intros H. destruct (IH H) as (pre & post & -> & Hn).
    exists (x :: pre), post. split; [reflexivity|].
    intros [Hx|Hx]; [|contradiction]. subst x. cbn [eq_str] in E.
    now rewrite pystr_eqb_refl in E.
Qed.

(** C7. On a valid registry, [remove] of a pair that does not exist
    returns failure and changes nothing. Of a pair that exists it returns
    success: the category's list is split at the first occurrence of the
    word, which alone is taken out; the words before and after it stay, in
    order, and so does the rest of the category; the other categories stay
    as they were; every callback is notified with the new mapping; and when
    no word is left the category key is gone from what [get] returns. *)
Theorem C7_remove_keyword (st : manager) (category word : pystr) :
  valid_registry (_keywords st) ->
  (has_keyword (_keywords st) category word = false ->
   remove_keyword category word st = Some (false, st))
  /\ (has_keyword (_keywords st) category word = true ->
      exists d ws st',
        dict_get category (_keywords st) = Some (PDict d)
        /\ dict_get k_words d = Some (PList ws)
        /\ remove_keyword category word st = Some (true, st')
        /\ _change_callbacks st' = _change_callbacks st
        /\ trace st' = trace st ++ notify_events 0 (_change_callbacks st) (_keywords st')
        /\ (forall c, c <> category ->
                      dict_get c (get_keywords st') = dict_get c (_keywords st))
        /\ (exists pre post, ws = pre ++ PStr word :: post /\ ~ In (PStr word) pre)
        /\ (forall pre post,
               ws = pre ++ PStr word :: post -> ~ In (PStr word) pre ->
               match pre ++ post with
               | [] => dict_mem category (get_keywords st') = false
               | _ :: _ =>
                 dict_get category (get_keywords st')
                 = Some (PDict (dict_set k_words (PList (pre ++ post)) d))
               end)).
Proof.
  intros Hv. split; [now apply remove_missing|].
  destruct st as [kw cbs tr]. cbn [_keywords _change_callbacks trace] in *.
  intros Hp. unfold has_keyword, words_of in Hp.
  destruct (dict_get category kw) as [data|] eqn:Eg; [|discriminate].
  destruct (valid_lookup _ _ _ Hv Eg) as (d & ws & col & -> & Ew & _).
  rewrite Ew in Hp. exists d, ws.
  unfold_ops. unfold dict_mem, get_keywords. rewrite Eg. cbn [subscript].
  rewrite Ew. cbn [contains]. rewrite Hp.
  destruct (remove_first word ws) as [|x ws'] eqn:Er;
    (eexists; split; [reflexivity|]; split; [reflexivity|]; split; [reflexivity|];
     cbn [_keywords _change_callbacks trace];
     split; [reflexivity|]; split; [reflexivity|]; split; [|split]).
  - intros c Hc. rewrite dict_get_del_other, dict_get_set_other; auto.
  - now apply first_occurrence.
  - intros pre post Hws Hn. rewrite Hws, remove_first_split in Er by assumption.
    rewrite Er. now rewrite dict_get_del_same.
  - intros c Hc. now rewrite dict_get_set_other.
  - now apply first_occurrence.
  - intros pre post Hws Hn. rewrite Hws, remove_first_split in Er by assumption.
    rewrite Er. now rewrite dict_get_set_same.
Qed.

Lemma C7_witness :
  valid_registry (_keywords two_observers)
  /\ (exists st',
         remove_keyword (u "종료_키워드") (u "0ㅅ0") two_observers = Some (true, st')
         /\ dict_mem (u "종료_키워드") (get_keywords st') = false)
  /\ (exists st',
         remove_keyword (u "입출력_키워드") (u "루?") two_observers = Some (true, st')
         /\ words_of (get_keywords st') (u "입출력_키워드")
            = Some [PStr (u "루"); PStr (u "루!"); PStr (u "아")]
         /\ dict_get (u "함수명") (get_keywords st')
            = dict_get (u "함수명") (_keywords two_observers)).
Proof.
  split; [reflexivity|]. split.
  - destruct (C7_remove_keyword two_observers (u "종료_키워드") (u "0ㅅ0") eq_refl)
      as [_ H].
    destruct (H eq_refl) as (d & ws & st' & Hd & Hw & Hr & _ & _ & _ & _ & Hsplit).
    exists st'. split; [exact Hr|].
    vm_compute in Hd. injection Hd as <-.
    vm_compute in Hw. injection Hw as <-.
    apply (Hsplit [] []); [reflexivity|]. intros [].
  - destruct (C7_remove_keyword two_observers (u "입출력_키워드") (u "루?") eq_refl)
      as [_ H].
    destruct (H eq_refl) as (d & ws & st' & Hd & Hw & Hr & _ & _ & Hother & _ & Hsplit).
    exists st'. split; [exact Hr|].
    vm_compute in Hd. injection Hd as <-.
    vm_compute in Hw. injection Hw as <-.
    split.
    + specialize (Hsplit [PStr (u "루")] [PStr (u "루!"); PStr (u "아")] eq_refl).
      unfold words_of. cbn [app] in Hsplit. rewrite Hsplit; [reflexivity|].
      intros [E|[]]. discriminate E.
    + apply Hother. discriminate.
Defined.

(** C8. Take a mutation ([set], [add] or [remove]) that succeeds on the
    registry data. With any list of callbacks, whatever each of them does,
    the call still returns success and leaves the same mapping (no
    exception of a callback comes out of it), the callbacks are called in
    order, each exactly once and with the new mapping, and the exception
    of each raising callback is printed. *)
Theorem C8_every_observer_is_notified
        (mu : mutation) (kw : dict) (cbs : list callback) (tr : list event)
        (st0 : manager) :
  run mu (Manager kw [] tr) = Some (true, st0) ->
  exists evs,
    run mu (Manager kw cbs tr) = Some (true, Manager (_keywords st0) cbs (tr ++ evs))
    /\ filter is_call evs
       = map (fun i => Called i (_keywords st0)) (seq 0 (length cbs))
    /\ (forall i cb e,
           nth_error cbs i = Some cb -> cb (_keywords st0) = Raises e ->
           In (Printed (u "키워드 변경 콜백 오류: " ++ e)) evs).
Proof.
  intros H0.
  pose proof (run_frame mu kw cbs tr [] tr) as Hf. rewrite H0 in Hf.
  destruct (run mu (Manager kw cbs tr)) as [[b st']|] eqn:Hr; [|contradiction].
  destruct Hf as [-> Hk].
  pose proof (run_outcome mu _ _ _ Hr) as [Hc Ht].
  cbn [_change_callbacks trace] in Hc, Ht.
  exists (notify_events 0 cbs (_keywords st0)). rewrite <- Hk. split; [|split].
  - destruct st' as [kw' cbs' tr']. cbn [_keywords _change_callbacks trace] in *.
    now subst.
  - apply calls_of_notify.
  - intros i cb e Hn He. eapply reports_of_notify; eauto.
Qed.

Lemma C8_witness :
  exists evs,
    add_keyword (u "종료_키워드") (u "끝") (u "#9C27B0") two_observers
    = Some (true,
            Manager (_keywords (Manager
                       (dict_set (u "종료_키워드")
                          (MollangKeywords.category ["0ㅅ0"; "끝"]%string (u "#9C27B0"))
                          get_default_keywords) [] []))
                    (_change_callbacks two_observers) ([] ++ evs))
    /\ filter is_call evs
       = map (fun i => Called i (_keywords (Manager
                       (dict_set (u "종료_키워드")
                          (MollangKeywords.category ["0ㅅ0"; "끝"]%string (u "#9C27B0"))
                          get_default_keywords) [] [])))
             (seq 0 (length (_change_callbacks two_observers)))
    /\ (forall i cb e,
           nth_error (_change_callbacks two_observers) i = Some cb ->
           cb (_keywords (Manager
                       (dict_set (u "종료_키워드")
                          (MollangKeywords.category ["0ㅅ0"; "끝"]%string (u "#9C27B0"))
                          get_default_keywords) [] [])) = Raises e ->
           In (Printed (u "키워드 변경 콜백 오류: " ++ e)) evs).
Proof.
  apply (C8_every_observer_is_notified
           (MAdd (u "종료_키워드") (u "끝") (u "#9C27B0"))
           get_default_keywords (_change_callbacks two_observers) []).
  reflexivity.
Defined.

(** C9. On a registry that passes validation, [set(get())] succeeds and
    the mapping afterwards is the mapping before; the callbacks stay
    registered and are notified of it. *)
Theorem C9_set_get_roundtrip (st : manager) :
  valid_registry (_keywords st) ->
  exists st',
    set_keywords (PDict (get_keywords st)) st = Some (true, st')
    /\ get_keywords st' = get_keywords st
    /\ _change_callbacks st' = _change_callbacks st.
Proof.
  intros Hv. unfold get_keywords. rewrite (set_keywords_accepts st _ Hv).
  eexists. split; [reflexivity|]. split; reflexivity.
Qed.

Lemma C9_witness :
  valid_registry (_keywords two_observers)
  /\ exists st',
       set_keywords (PDict (get_keywords two_observers)) two_observers = Some (true, st')
       /\ get_keywords st' = get_keywords two_observers
       /\ _change_callbacks st' = _change_callbacks two_observers.
Proof.
  split; [reflexivity|]. apply (C9_set_get_roundtrip two_observers). reflexivity.
Defined.

(** C10. When both steps of [update] succeed, the call returns success and
    every registered callback is called exactly twice during it: once with
    the mapping left by the remove step and once with the mapping left by
    the add step. *)
Theorem C10_update_notifies_twice
        (st st1 st2 : manager)
        (old_category old_word new_category new_word new_color : pystr) :
  remove_keyword old_category old_word st = Some (true, st1) ->
  add_keyword new_category new_word new_color st1 = Some (true, st2) ->
  update_keyword old_category old_word new_category new_word new_color st
  = Some (true, st2)
  /\ exists evs,
      trace st2 = trace st ++ evs
      /\ forall i, i < length (_change_callbacks st) ->
                   filter (is_call_of i) evs
                   = [Called i (_keywords st1); Called i (_keywords st2)].
Proof.
  intros Hr Ha. split.
  - unfold update_keyword, bind. now rewrite Hr.
  - pose proof (run_outcome (MRemove old_category old_word) st _ _ Hr) as [Hc1 Ht1].
    pose proof (run_outcome (MAdd new_category new_word new_color) st1 _ _ Ha) as [Hc2 Ht2].
    rewrite Hc1 in Ht2. rewrite Ht1, <- app_assoc in Ht2.
    eexists. split; [exact Ht2|].
    intros i Hi. rewrite filter_app, !calls_of_one. cbn [Nat.leb andb Nat.add].
    apply Nat.ltb_lt in Hi. now rewrite Hi.
Qed.

Lemma C10_witness :
  update_keyword (u "종료_키워드") (u "0ㅅ0") (u "종료_키워드") (u "끝") (u "#9C27B0")
                 two_observers
  = add_keyword (u "종료_키워드") (u "끝") (u "#9C27B0")
      (match remove_keyword (u "종료_키워드") (u "0ㅅ0") two_observers with
       | Some (_, st1) => st1
       | None => two_observers
       end).
Proof.
  pose (st1 := match remove_keyword (u "종료_키워드") (u "0ㅅ0") two_observers with
               | Some (_, st1) => st1
               | None => two_observers
               end).
  pose (st2 := match add_keyword (u "종료_키워드") (u "끝") (u "#9C27B0") st1 with
               | Some (_, st2) => st2
               | None => st1
               end).
  destruct (C10_update_notifies_twice
              two_observers st1 st2
              (u "종료_키워드") (u "0ㅅ0") (u "종료_키워드") (u "끝") (u "#9C27B0")
              eq_refl eq_refl) as [H _].
  rewrite H. reflexivity.
Defined.

End Registry.


(** ** The regular-expression engine *)

Section EngineFacts.
Import Regex.

Variable text : pystr.

Lemma times_respects body1 body2 n :
  respects body1 body2 -> respects (times body1 n) (times body2 n).
Proof.
  intros Hb. induction n as [|n IH]; intros pos k k' Hk; cbn [times].
  - apply Hk.
  - apply Hb. intros p. now apply IH.
Qed.

Lemma upto_respects body1 body2 n :
  respects body1 body2 -> respects (upto body1 n) (upto body2 n).
Proof.
  intros Hb. induction n as [|n IH]; intros pos k k' Hk; cbn [upto].
  - apply Hk.
  - rewrite (Hk pos). f_equal. apply Hb. intros p.
    destruct (p =? pos); [reflexivity|]. now apply IH.
Qed.

Lemma times_bounded body n :
  bounded (length text) body -> bounded (length text) (times body n).
Proof.
  intros Hb. induction n as [|n IH]; intros pos k e Hpos H; cbn [times] in H.
  - exists pos. split; [lia|assumption].
  - apply Hb in H; [|assumption]. destruct H as (p & Hp & H).
    apply IH in H; [|lia]. destruct H as (q & Hq & H). exists q. split; [lia|assumption].
Qed.

Lemma upto_bounded body n :
  bounded (length text) body -> bounded (length text) (upto body n).
Proof.
  intros Hb. induction n as [|n IH]; intros pos k e Hpos H; cbn [upto] in H.
  - exists pos. split; [lia|assumption].
  - unfold orelse in H.
    destruct (body pos _) as [e'|] eqn:E.
    + injection H as ->. apply Hb in E; [|assumption]. destruct E as (p & Hp & E).
      destruct (p =? pos); [discriminate|].
      apply IH in E; [|lia]. destruct E as (q & Hq & E). exists q. split; [lia|assumption].
    + exists pos. split; [lia|assumption].
Qed.

Section Bounds.
Variable is_word : N -> bool.

Lemma m_bounded r : bounded (length text) (m is_word text r).
Proof.
  induction r as [c|cs|r1 IH1 r2 IH2|r1 IH1 r2 IH2|r IH lo hi| |r IH| ];
    intros pos k e Hpos H; cbn [m] in H.
  - destruct (nth_error text pos) as [d|] eqn:E; [|discriminate].
    assert (pos < length text) by (apply nth_error_Some; congruence).
    destruct (d =? c)%N; [|discriminate]. exists (S pos). split; [lia|assumption].
  - destruct (nth_error text pos) as [d|] eqn:E; [|discriminate].
    assert (pos < length text) by (apply nth_error_Some; congruence).
    destruct (existsb _ cs); [|discriminate]. exists (S pos). split; [lia|assumption].
  - apply IH1 in H; [|assumption]. destruct H as (p & Hp & H).
    apply IH2 in H; [|lia]. destruct H as (q & Hq & H). exists q. split; [lia|assumption].
  - unfold orelse in H. destruct (m is_word text r1 pos k) eqn:E.
    + injection H as ->. now apply IH1 in E.
    + now apply IH2 in H.
  - apply (times_bounded _ lo IH) in H; [|assumption]. destruct H as (p & Hp & H).
    apply (upto_bounded _ _ IH) in H; [|lia]. destruct H as (q & Hq & H).
    exists q. split; [lia|assumption].
  - destruct (xorb _ _); [|discriminate]. exists pos. split; [lia|assumption].
  - destruct (m is_word text r pos _); [discriminate|].
    exists pos. split; [lia|assumption].
  - exists pos. split; [lia|assumption].
Qed.

Lemma match_at_bounds r ne start e :
  start <= length text -> match_at is_word text r ne start = Some e ->
  start <= e <= length text /\ (ne = true -> e <> start).
Proof.
  intros Hs H. unfold match_at in H. apply m_bounded in H; [|assumption].
  destruct H as (p & Hp & H).
  destruct ne; cbn [andb] in H.
  - destruct (Nat.eqb_spec p start); [discriminate|]. injection H as <-. auto.
  - injection H as <-. split; [assumption|discriminate].
Qed.

Lemma search_bounds r n start s e :
  start + n <= length text -> search is_word text r n start = Some (s, e) ->
  start <= s /\ s <= e <= length text.
Proof.
  revert start. induction n as [|n IH]; intros start Hs H; cbn [search] in H;
    destruct (match_at is_word text r false start) as [e'|] eqn:E;
    try discriminate.
  - injection H as <- <-. apply match_at_bounds in E; lia.
  - injection H as <- <-. apply match_at_bounds in E; lia.
  - apply IH in H; lia.
Qed.

Lemma search_from_bounds r offset s e :
  search_from is_word text r offset = Some (s, e) ->
  offset <= s /\ s <= e <= length text.
Proof.
  unfold search_from. destruct (Nat.leb_spec offset (length text)); [|discriminate].
  apply search_bounds. lia.
Qed.

(** The fuel of [globalMatch] is never used up: more fuel gives the same
    list of matches. *)
Lemma global_loop_fuel r fuel extra offset (pe : bool) :
  offset <= length text ->
  2 * (length text - offset) + (if pe then 0 else 1) < fuel ->
  global_loop is_word text r (fuel + extra) offset pe
  = global_loop is_word text r fuel offset pe.
Proof.
  revert offset pe. induction fuel as [|fuel IH]; intros offset pe Ho Hf; [lia|].
  cbn [Nat.add global_loop].
  destruct (if pe
            then match match_at is_word text r true offset with
                 | Some e => Some (offset, e)
                 | None => search_from is_word text r (S offset)
                 end
            else search_from is_word text r offset) as [[s e]|] eqn:Ef;
    [|reflexivity].
  f_equal.
  assert (Hb : s <= e <= length text
               /\ 2 * (length text - e) + (if e =? s then 0 else 1) < fuel).
  { destruct pe.
    - destruct (match_at is_word text r true offset) as [e'|] eqn:Em.
      + injection Ef as <- <-. apply match_at_bounds in Em; [|assumption].
        destruct Em as [Hb Hne]. specialize (Hne eq_refl).
        destruct (Nat.eqb_spec e' offset); lia.
      + apply search_from_bounds in Ef. destruct (e =? s); lia.
    - apply search_from_bounds in Ef. destruct (Nat.eqb_spec e s); lia. }
  apply IH; lia.
Qed.

Lemma globalMatch_enough_fuel r extra :
  global_loop is_word text r (2 * length text + 2 + extra) 0 false
  = globalMatch is_word text r.
Proof. unfold globalMatch. apply global_loop_fuel; lia. Qed.

(** Every match lies inside the text. *)
Lemma global_loop_in_text r fuel offset pe s len :
  offset <= length text ->
  In (s, len) (global_loop is_word text r fuel offset pe) ->
  offset <= s /\ s + len <= length text.
Proof.
  revert offset pe. induction fuel as [|fuel IH]; intros offset pe Ho Hin;
    cbn [global_loop] in Hin; [contradiction|].
  destruct (if pe
            then match match_at is_word text r true offset with
                 | Some e => Some (offset, e)
                 | None => search_from is_word text r (S offset)
                 end
            else search_from is_word text r offset) as [[s' e]|] eqn:Ef;
    [|contradiction].
  assert (Hb : offset <= s' /\ s' <= e <= length text).
  { destruct pe.
    - destruct (match_at is_word text r true offset) as [e'|] eqn:Em.
      + injection Ef as <- <-. apply match_at_bounds in Em; lia.
      + apply search_from_bounds in Ef. lia.
    - now apply search_from_bounds in Ef. }
  destruct Hin as [E|Hin].
  - injection E as <- <-. lia.
  - apply IH in Hin; lia.
Qed.

End Bounds.

(** The engine looks at [\w] only on the characters of the text. *)
Section SameWords.
Variables is_word1 is_word2 : N -> bool.
Hypothesis same : forall c, In c text -> is_word1 c = is_word2 c.

Lemma word_at_same pos : word_at is_word1 text pos = word_at is_word2 text pos.
Proof.
  unfold word_at. destruct (nth_error text pos) as [c|] eqn:E; [|reflexivity].
  apply same. eapply nth_error_In. eassumption.
Qed.

Lemma m_same r : respects (m is_word1 text r) (m is_word2 text r).
Proof.
  induction r as [c|cs|r1 IH1 r2 IH2|r1 IH1 r2 IH2|r IH lo hi| |r IH| ];
    intros pos k k' Hk; cbn [m].
  - destruct (nth_error text pos); [|reflexivity]. now rewrite Hk.
  - destruct (nth_error text pos); [|reflexivity]. now rewrite Hk.
  - apply IH1. intros p. now apply IH2.
  - now rewrite (IH1 pos k k' Hk), (IH2 pos k k' Hk).
  - apply times_respects; [assumption|]. intros p.
    now apply upto_respects.
  - assert (Hb : word_before is_word1 text pos = word_before is_word2 text pos)
      by (destruct pos; [reflexivity|apply word_at_same]).
    now rewrite Hb, word_at_same, Hk.
  - rewrite (IH pos (fun p => Some p) (fun p => Some p)) by reflexivity.
    now rewrite Hk.
  - apply Hk.
Qed.

Lemma match_at_same r ne start :
  match_at is_word1 text r ne start = match_at is_word2 text r ne start.
Proof. unfold match_at. now apply m_same. Qed.

Lemma search_same r n start :
  search is_word1 text r n start = search is_word2 text r n start.
Proof.
  revert start. induction n as [|n IH]; intros start; cbn [search];
    rewrite match_at_same; [reflexivity|]. now rewrite IH.
Qed.

Lemma global_loop_same r fuel offset pe :
  global_loop is_word1 text r fuel offset pe = global_loop is_word2 text r fuel offset pe.
Proof.
  revert offset pe. induction fuel as [|fuel IH]; intros offset pe; cbn [global_loop];
    [reflexivity|].
  unfold search_from. rewrite match_at_same, !search_same.
  destruct (if pe then _ else _) as [[s e]|]; [|reflexivity]. now rewrite IH.
Qed.

Lemma globalMatch_same r :
  globalMatch is_word1 text r = globalMatch is_word2 text r.
Proof. unfold globalMatch. apply global_loop_same. Qed.

Lemma highlightBlock_same rules :
  MollangSyntaxHighlighter.highlightBlock_with is_word1 rules text
  = MollangSyntaxHighlighter.highlightBlock_with is_word2 rules text.
Proof.
  unfold MollangSyntaxHighlighter.highlightBlock_with.
  generalize (repeat (@None style) (length text)).
  induction rules as [|r rules IH]; intros fs; cbn [fold_left]; [reflexivity|].
  rewrite IH. unfold MollangSyntaxHighlighter.apply_rule at 2 4.
  now rewrite globalMatch_same.
Qed.

End SameWords.

End EngineFacts.

(** ** The classification engine *)

Section Engine.
Import Regex MollangKeywords MollangHighlightingRules MollangSyntaxHighlighter.

Lemma setFormat_length start count fmt fs :
  length (setFormat start count fmt fs) = length fs.
Proof.
  unfold setFormat. destruct (Nat.leb_spec (length fs) start); [reflexivity|].
  rewrite !length_app, length_firstn, repeat_length, length_skipn. lia.
Qed.

Lemma setFormat_nth start count fmt fs p :
  p < length fs ->
  nth_error (setFormat start count fmt fs) p
  = if (start <=? p) && (p <? start + count) then Some (Some fmt) else nth_error fs p.
Proof.
  intros Hp. unfold setFormat.
  destruct (Nat.leb_spec (length fs) start) as [Hout|Hin].
  - destruct (Nat.leb_spec start p); [lia|reflexivity].
  - set (stop := Nat.min (start + count) (length fs)).
    assert (Hstop : stop <= length fs /\ start <= stop
                    /\ (p < start + count <-> p < stop)) by (unfold stop; lia).
    destruct Hstop as (H1 & H2 & H3).
    destruct (Nat.leb_spec start p) as [Hsp|Hsp]; cbn [andb].
    + rewrite nth_error_app2 by (rewrite length_firstn; lia).
      rewrite length_firstn, Nat.min_l by lia.
      destruct (Nat.ltb_spec p (start + count)) as [Hlt|Hge].
      * rewrite nth_error_app1 by (rewrite repeat_length; lia).
        apply nth_error_repeat. lia.
      * rewrite nth_error_app2 by (rewrite repeat_length; lia).
        rewrite repeat_length, nth_error_skipn. f_equal. lia.
    + rewrite nth_error_app1 by (rewrite length_firstn; lia).
      rewrite nth_error_firstn.
      destruct (Nat.ltb_spec p start); [reflexivity|lia].
Qed.

Section OneText.
Variable is_word : N -> bool.
Variable text : pystr.

Lemma apply_rule_length fs r :
  length (apply_rule is_word text fs r) = length fs.
Proof.
  unfold apply_rule. generalize (globalMatch is_word text (pattern r)) as ms.
  intros ms. revert fs. induction ms as [|sl ms IH]; intros fs; cbn [fold_left].
  - reflexivity.
  - now rewrite IH, setFormat_length.
Qed.

Lemma apply_rule_nth fs r p :
  p < length fs ->
  nth_error (apply_rule is_word text fs r) p
  = if covers is_word text r p then Some (Some (format r)) else nth_error fs p.
Proof.
  unfold apply_rule, covers.
  generalize (globalMatch is_word text (pattern r)) as ms.
  intros ms. revert fs. induction ms as [|sl ms IH]; intros fs Hp;
    cbn [fold_left existsb].
  - reflexivity.
  - rewrite IH by now rewrite setFormat_length.
    rewrite setFormat_nth by assumption.
    destruct ((fst sl <=? p) && (p <? fst sl + snd sl)); cbn [orb].
    + now destruct (existsb _ ms).
    + reflexivity.
Qed.

Lemma fold_rules_length rules fs :
  length (fold_left (apply_rule is_word text) rules fs) = length fs.
Proof.
  revert fs. induction rules as [|r rules IH]; intros fs; cbn [fold_left].
  - reflexivity.
  - now rewrite IH, apply_rule_length.
Qed.

(** The format of a character after all the rules: that of the last
    rule of the list with a match covering it, and otherwise the one it
    had. *)
Lemma fold_rules_nth rules fs p :
  p < length fs ->
  nth_error (fold_left (apply_rule is_word text) rules fs) p
  = match find (fun r => covers is_word text r p) (rev rules) with
    | Some r => Some (Some (format r))
    | None => nth_error fs p
    end.
Proof.
  intros Hp. induction rules as [|r rules IH] using rev_ind.
  - reflexivity.
  - rewrite fold_left_app, rev_app_distr. cbn [fold_left rev app find].
    rewrite apply_rule_nth by now rewrite fold_rules_length.
    now destruct (covers is_word text r p).
Qed.

Lemma highlightBlock_nth rules p :
  p < length text ->
  nth_error (highlightBlock_with is_word rules text) p
  = Some (option_map format (find (fun r => covers is_word text r p) (rev rules))).
Proof.
  intros Hp. unfold highlightBlock_with.
  rewrite fold_rules_nth by now rewrite repeat_length.
  destruct (find _ (rev rules)); cbn [option_map]; [reflexivity|].
  now apply nth_error_repeat.
Qed.

End OneText.

Lemma find_last {A} (f : A -> bool) (l : list A) (j : nat) (x : A) :
  nth_error l j = Some x -> f x = true ->
  (forall k y, j < k -> nth_error l k = Some y -> f y = false) ->
  find f (rev l) = Some x.
Proof.
  induction l as [|a l IH] using rev_ind; intros Hj Hx Hlater.
  - now destruct j.
  - rewrite rev_app_distr. cbn [rev app find].
    destruct (Nat.eq_dec j (length l)) as [->|Hne].
    + rewrite nth_error_app2, Nat.sub_diag in Hj by lia.
      injection Hj as ->. now rewrite Hx.
    + assert (Hlt : j < length l).
      { assert (j < length (l ++ [a])) by (apply nth_error_Some; congruence).
        rewrite length_app in *. cbn [length] in *. lia. }
      rewrite nth_error_app1 in Hj by assumption.
      rewrite (Hlater (length l) a Hlt)
        by (rewrite nth_error_app2, Nat.sub_diag by lia; reflexivity).
      apply IH; auto. intros k y Hk Hy. apply (Hlater k y Hk).
      rewrite nth_error_app1; [assumption|]. apply nth_error_Some. congruence.
Qed.

Lemma nth_after_skipn {A} (f : A -> bool) (l : list A) (n : nat) :
  forallb f (skipn (S n) l) = true ->
  forall k y, n < k -> nth_error l k = Some y -> f y = true.
Proof.
  intros H k y Hk Hy. rewrite forallb_forall in H. apply H.
  apply nth_error_In with (n := k - S n). rewrite nth_error_skipn.
  now replace (S n + (k - S n)) with k by lia.
Qed.

(** C3. When a rule later in the list has a match covering a character
    that a match of an earlier rule covers too, and no rule after it
    covers that character, the character ends with the later rule's
    format: on an overlap the last rule of the list wins. *)
Theorem C3_last_rule_wins
        (rules : list rule) (text : pystr) (p i j : nat) (ri rj : rule) :
  p < length text ->
  i < j ->
  nth_error rules i = Some ri ->
  nth_error rules j = Some rj ->
  covers ascii_word text ri p = true ->
  covers ascii_word text rj p = true ->
  (forall k rk, j < k -> nth_error rules k = Some rk ->
                covers ascii_word text rk p = false) ->
  nth_error (highlightBlock rules text) p = Some (Some (format rj)).
Proof.
  intros Hp _ _ Hj _ Hcj Hlast. unfold highlightBlock.
  rewrite highlightBlock_nth by assumption.
  now rewrite (find_last (fun r => covers ascii_word text r p) rules j rj Hj Hcj Hlast).
Qed.

Lemma default_rules_compiled :
  _setup_highlighting_rules get_default_keywords = Some default_rules.
Proof. reflexivity. Qed.

Lemma C3_witness :
  nth_error (highlightBlock default_rules (u "....")) 0
  = Some (Some (Style SyntaxColors.OPERATOR_SINGLE true)).
Proof.
  apply (C3_last_rule_wins
           default_rules (u "....") 0 13 20
           (HighlightingRule (Rep (l ".") 4 None) SyntaxColors.OPERATOR_MULTI true)
           (HighlightingRule (l ".") SyntaxColors.OPERATOR_SINGLE true)).
  - vm_compute. lia.
  - lia.
  - reflexivity.
  - reflexivity.
  - reflexivity.
  - reflexivity.
  - intros k rk Hk Hn. apply negb_true_iff.
    apply (nth_after_skipn
             (fun r => negb (covers ascii_word (u "....") r 0)) default_rules 20
             eq_refl k rk Hk Hn).
Defined.

(** The outcome on the four-dot unit does not depend on which characters
    the engine counts as word characters. *)
Lemma four_dots_any_word_class (is_word : N -> bool) :
  highlightBlock_with is_word default_rules (u "....")
  = repeat (Some (Style SyntaxColors.OPERATOR_SINGLE true)) 4.
Proof.
  rewrite (highlightBlock_same (u "....") is_word (fun _ => is_word 46%N)).
  - destruct (is_word 46%N); vm_compute; reflexivity.
  - intros c Hc. vm_compute in Hc.
    destruct Hc as [<-|[<-|[<-|[<-|[]]]]]; reflexivity.
Qed.

(** Nor does the loss of the string-I/O format on the string-input unit:
    whatever the word characters are, the tilde and the question mark end
    as single operators and no character keeps the string-I/O format. *)
Lemma string_input_any_word_class (is_word : N -> bool) :
  nth_error (highlightBlock_with is_word default_rules (u "몰~몰루?")) 1
  = Some (Some (Style SyntaxColors.OPERATOR_SINGLE true))
  /\ nth_error (highlightBlock_with is_word default_rules (u "몰~몰루?")) 4
     = Some (Some (Style SyntaxColors.OPERATOR_SINGLE true))
  /\ forallb (fun f => match f with
                       | Some st => negb (pystr_eqb (foreground st) SyntaxColors.STRING_IO)
                       | None => true
                       end)
             (highlightBlock_with is_word default_rules (u "몰~몰루?")) = true.
Proof.
  rewrite (highlightBlock_same (u "몰~몰루?") is_word
             (fun c => if (c =? 47792)%N then is_word 47792%N
                       else if (c =? 126)%N then is_word 126%N
                       else if (c =? 47336)%N then is_word 47336%N
                       else is_word 63%N)).
  - destruct (is_word 47792%N), (is_word 126%N), (is_word 47336%N), (is_word 63%N);
      vm_compute; repeat split; reflexivity.
  - intros c Hc. vm_compute in Hc.
    destruct Hc as [<-|[<-|[<-|[<-|[<-|[]]]]]]; reflexivity.
Qed.

(** C1 (what the code does). With the rule list compiled from the
    built-in keywords, every character of the four-dot unit ends with the
    single-operator format, which is not the multi-operator one: the
    single-dot rule comes after the dot-run rules and overwrites them. *)
Theorem C1_four_dots_end_as_single_operators :
  _setup_highlighting_rules get_default_keywords = Some default_rules
  /\ highlightBlock default_rules (u "....")
     = repeat (Some (Style SyntaxColors.OPERATOR_SINGLE true)) 4
  /\ Style SyntaxColors.OPERATOR_SINGLE true <> Style SyntaxColors.OPERATOR_MULTI true.
Proof.
  split; [reflexivity|]. split; [apply four_dots_any_word_class|]. discriminate.
Qed.

(** C2 (what the code does). With the same rule list, no character of
    the string-input unit keeps the string-I/O format: the two variables
    end with the heap-memory format, the key word with the complex-keyword
    format, and the tilde and the question mark with the single-operator
    format. *)
Theorem C2_string_input_is_overwritten :
  highlightBlock default_rules (u "몰~몰루?")
  = [ Some (Style SyntaxColors.HEAP_MEMORY true);
      Some (Style SyntaxColors.OPERATOR_SINGLE true);
      Some (Style SyntaxColors.HEAP_MEMORY true);
      Some (Style SyntaxColors.KEYWORD_COMPLEX true);
      Some (Style SyntaxColors.OPERATOR_SINGLE true) ]
  /\ ~ In (Some (Style SyntaxColors.STRING_IO true))
          (highlightBlock default_rules (u "몰~몰루?")).
Proof.
  assert (H : highlightBlock default_rules (u "몰~몰루?")
              = [ Some (Style SyntaxColors.HEAP_MEMORY true);
                  Some (Style SyntaxColors.OPERATOR_SINGLE true);
                  Some (Style SyntaxColors.HEAP_MEMORY true);
                  Some (Style SyntaxColors.KEYWORD_COMPLEX true);
                  Some (Style SyntaxColors.OPERATOR_SINGLE true) ])
    by (vm_compute; reflexivity).
  split; [exact H|]. rewrite H. cbn [In].
  intros [E|[E|[E|[E|[E|[]]]]]]; discriminate E.
Qed.

End Engine.


(** ** The rule compiler *)

Section Compiler.
Import Regex MollangKeywords MollangHighlightingRules MollangSyntaxHighlighter.

Lemma lit_inj (a b : pystr) : lit a = lit b -> a = b.
Proof.
  revert b. induction a as [|x a IH]; intros [|y b] H.
  - reflexivity.
  - destruct b; discriminate H.
  - destruct a; discriminate H.
  - destruct a as [|x' a], b as [|y' b]; cbn [lit] in H.
    + now injection H as ->.
    + discriminate H.
    + discriminate H.
    + injection H as -> H. f_equal. now apply IH.
Qed.

Lemma eq_str_true w x : eq_str w x = true <-> x = PStr w.
Proof.
  destruct x; cbn [eq_str]; try (split; discriminate).
  rewrite pystr_eqb_eq. split; congruence.
Qed.

Lemma existsb_eq_str w ws : existsb (eq_str w) ws = true <-> In (PStr w) ws.
Proof.
  rewrite existsb_exists. split.
  - intros (x & Hin & He). apply eq_str_true in He. now subst.
  - intros Hin. exists (PStr w). split; [assumption|]. now apply eq_str_true.
Qed.

Lemma _is_default_keyword_spec w :
  _is_default_keyword w = true <-> listed get_default_keywords w.
Proof.
  unfold _is_default_keyword, listed.
  generalize get_default_keywords as kw. intros kw.
  rewrite existsb_exists. split.
  - intros ([c data] & Hin & H). cbn [snd] in H.
    destruct data as [ | | | | |d]; try discriminate.
    destruct (dict_get k_words d) as [[ | | | |ws| ]|] eqn:Ew; try discriminate.
    exists c, d, ws. repeat split; auto. now apply existsb_eq_str.
  - intros (c & d & ws & Hin & Ew & Hw).
    exists (c, PDict d). split; [assumption|]. cbn [snd]. rewrite Ew.
    now apply existsb_eq_str.
Qed.

Lemma custom_rules_of_words_spec ws col :
  forallb is_str ws = true ->
  exists rs,
    custom_rules_of_words ws (PStr col) = Some rs
    /\ forall w c,
        In (HighlightingRule (whole_word w) c true) rs
        <-> In (PStr w) ws /\ c = col /\ _is_default_keyword w = false.
Proof.
  induction ws as [|x ws IH]; cbn [forallb custom_rules_of_words]; intros Hs.
  - exists []. split; [reflexivity|]. intros w c. cbn [In]. tauto.
  - apply andb_prop in Hs. destruct Hs as [Hx Hs].
    destruct x as [ | | |s| | ]; try discriminate Hx.
    destruct (IH Hs) as (rs & -> & Hrs).
    destruct (_is_default_keyword s) eqn:Ed; cbn [negb].
    + exists rs. split; [reflexivity|]. intros w c. rewrite Hrs. cbn [In].
      split; [tauto|]. intros ([E|Hin] & Hc & Hd); [|tauto].
      injection E as ->. congruence.
    + eexists. split; [reflexivity|]. intros w c. cbn [In]. rewrite Hrs.
      split.
      * intros [E|H]; [|tauto]. unfold HighlightingRule in E.
        injection E as E ->. apply lit_inj in E. subst s. tauto.
      * intros ([E|Hin] & -> & Hd); [|tauto]. injection E as ->. now left.
Qed.

(** C5 (as amended). For a valid registry whose words are strings the
    compiler returns the built-in rules followed by the custom ones, and a
    custom whole-token rule for a word with a colour is among them if and
    only if the registry lists the word in a category of that colour and
    the word is in none of the built-in categories. *)
Theorem C5_custom_rule_iff_not_builtin (kw : dict) :
  valid_registry kw ->
  words_are_strings kw = true ->
  exists custom,
    _add_custom_keyword_rules kw = Some custom
    /\ _setup_highlighting_rules kw = Some (builtin_rules ++ custom)
    /\ forall w c,
        In (HighlightingRule (whole_word w) c true) custom
        <-> listed_with_color kw w c /\ ~ listed get_default_keywords w.
Proof.
  intros Hv Hs.
  assert (H : exists custom,
             _add_custom_keyword_rules kw = Some custom
             /\ forall w c,
                 In (HighlightingRule (whole_word w) c true) custom
                 <-> listed_with_color kw w c /\ _is_default_keyword w = false).
  { unfold valid_registry, validate_keyword_data, words_are_strings in *.
    induction kw as [|[cat data] kw IH]; cbn [forallb _add_custom_keyword_rules] in *.
    - exists []. split; [reflexivity|]. intros w c. cbn [In].
      split; [tauto|]. intros [(c0 & d & ws & [] & _) _].
    - apply andb_prop in Hv. destruct Hv as [Hv1 Hv].
      apply andb_prop in Hs. destruct Hs as [Hs1 Hs].
      destruct (IH Hv Hs) as (rs' & -> & Hrs'). clear IH.
      cbn [snd] in Hv1, Hs1. unfold valid_category in Hv1.
      destruct data as [ | | | | |d]; try discriminate.
      destruct (dict_get k_words d) as [[ | | | |ws| ]|] eqn:Ew; try discriminate.
      destruct (dict_get k_color d) as [[ | | |col| | ]|] eqn:Ec; try discriminate.
      destruct (custom_rules_of_words_spec ws col Hs1) as (rs & Hr & Hrs).
      unfold custom_rules_of_category. rewrite Ew, Ec. cbn [iterate]. rewrite Hr.
      exists (rs ++ rs'). split; [reflexivity|]. intros w c.
      rewrite in_app_iff, Hrs, Hrs'. unfold listed_with_color. cbn [In]. split.
      + intros [(Hin & -> & Hd)|[(c0 & d0 & ws0 & Hin & Hw & Hi & Hc) Hd]].
        * split; [|assumption]. exists cat, d, ws. auto.
        * split; [|assumption]. exists c0, d0, ws0. auto.
      + intros [(c0 & d0 & ws0 & [E|Hin] & Hw & Hi & Hc) Hd].
        * injection E as -> ->. left. rewrite Ew in Hw. injection Hw as ->.
          rewrite Ec in Hc. injection Hc as ->. auto.
        * right. split; [|assumption]. exists c0, d0, ws0. auto. }
  destruct H as (custom & Hc & Hiff). exists custom.
  split; [assumption|]. split.
  - unfold _setup_highlighting_rules. now rewrite Hc.
  - intros w c. rewrite Hiff, <- _is_default_keyword_spec.
    now destruct (_is_default_keyword w); intuition congruence.
Qed.

Lemma C5_witness :
  exists custom,
    _add_custom_keyword_rules
      [(u "사용자", category ["루"; "몰랑"]%string (u "#123456"))] = Some custom
    /\ _setup_highlighting_rules
         [(u "사용자", category ["루"; "몰랑"]%string (u "#123456"))]
       = Some (builtin_rules ++ custom)
    /\ forall w c,
        In (HighlightingRule (whole_word w) c true) custom
        <-> listed_with_color
              [(u "사용자", category ["루"; "몰랑"]%string (u "#123456"))] w c
            /\ ~ listed get_default_keywords w.
Proof.
  apply (C5_custom_rule_iff_not_builtin
           [(u "사용자", category ["루"; "몰랑"]%string (u "#123456"))]);
    reflexivity.
Defined.

(** C5 as stated fails: the built-in registry lists the I/O keyword 루,
    which is not a function name, and the compiler adds no custom rule at
    all for it. *)
Lemma C5_counterexample :
  listed get_default_keywords (u "루")
  /\ ~ In (u "루") function_names
  /\ _add_custom_keyword_rules get_default_keywords = Some []
  /\ _setup_highlighting_rules get_default_keywords = Some (builtin_rules ++ []).
Proof.
  split; [|split; [|split; reflexivity]].
  - exists (u "입출력_키워드"), [(k_words, PList (map (fun w => PStr (u w))
                                                ["루"; "루?"; "루!"; "아"]%string));
                               (k_color, PStr SyntaxColors.KEYWORD_SIMPLE)],
           (map (fun w => PStr (u w)) ["루"; "루?"; "루!"; "아"]%string).
    split; [|split; [reflexivity|now left]].
    right. right. now left.
  - vm_compute. intuition discriminate.
Qed.

End Compiler.


(** ** More on the registry *)

Section RegistryMore.
Import KeywordManager MollangKeywords.

Lemma dict_set_set k v v' d : dict_set k v' (dict_set k v d) = dict_set k v' d.
Proof.
  induction d as [|[k0 v0] d IH]; cbn [dict_set].
  - now rewrite pystr_eqb_refl.
  - destruct (pystr_eqb k0 k) eqn:E; cbn [dict_set]; rewrite E; [reflexivity|].
    now rewrite IH.
Qed.

Lemma valid_dict_set c v kw :
  valid_registry kw -> valid_category v = true -> valid_registry (dict_set c v kw).
Proof.
  unfold valid_registry, validate_keyword_data. intros Hv Hc.
  induction kw as [|[k0 v0] kw IH]; cbn [dict_set forallb snd] in *.
  - now rewrite Hc.
  - apply andb_prop in Hv. destruct Hv as [H0 Hv].
    destruct (pystr_eqb k0 c); cbn [forallb snd].
    + now rewrite Hc, Hv.
    + now rewrite H0, IH.
Qed.

Lemma valid_dict_del c kw : valid_registry kw -> valid_registry (dict_del c kw).
Proof.
  unfold valid_registry, validate_keyword_data, dict_del. intros Hv.
  induction kw as [|[k0 v0] kw IH]; cbn [filter forallb snd fst] in *; [reflexivity|].
  apply andb_prop in Hv. destruct Hv as [H0 Hv].
  destruct (pystr_eqb k0 c); cbn [negb forallb snd]; [now apply IH|].
  now rewrite H0, IH.
Qed.

Lemma valid_category_words d ws col :
  dict_get k_color d = Some (PStr col) ->
  valid_category (PDict (dict_set k_words (PList ws) d)) = true.
Proof.
  intros Hc. unfold valid_category. rewrite dict_get_set_same.
  rewrite dict_get_set_other by (intros E; symmetry in E; now apply k_words_color in E).
  now rewrite Hc.
Qed.

Lemma valid_category_added d ws col :
  valid_category
    (PDict (dict_set k_color (PStr col) (dict_set k_words (PList ws) d))) = true.
Proof.
  unfold valid_category. rewrite dict_get_set_same.
  rewrite dict_get_set_other by apply k_words_color.
  now rewrite dict_get_set_same.
Qed.

(** The state a successful [add_keyword] leaves: [d] and [ws] are the
    category and its words before, or a fresh category without words. *)
Lemma add_result st c w col :
  valid_registry (_keywords st) -> has_keyword (_keywords st) c w = false ->
  exists d ws,
    (dict_get c (_keywords st) = Some (PDict d) /\ dict_get k_words d = Some (PList ws)
     \/ dict_get c (_keywords st) = None /\ ws = []
        /\ d = [(k_words, PList []); (k_color, PStr col)])
    /\ add_keyword c w col st
       = let kw' := dict_set c (PDict (dict_set k_color (PStr col)
                                         (dict_set k_words (PList (ws ++ [PStr w])) d)))
                             (_keywords st) in
         Some (true, Manager kw' (_change_callbacks st)
                             (trace st ++ notify_events 0 (_change_callbacks st) kw')).
Proof.
  destruct st as [kw cbs tr]. cbn [_keywords _change_callbacks trace]. intros Hv Hp.
  unfold has_keyword, words_of in Hp.
  unfold add_keyword, bind, ret, try, keywords, set_dict, _notify_change, emit, dict_mem.
  cbn [_keywords _change_callbacks trace].
  destruct (dict_get c kw) as [data|] eqn:Eg.
  - destruct (valid_lookup _ _ _ Hv Eg) as (d & ws & col' & -> & Ew & _).
    exists d, ws. split; [left; auto|].
    cbn [negb _keywords]. rewrite Eg. cbn [subscript]. rewrite Ew in *.
    cbn [contains]. rewrite Hp. reflexivity.
  - exists [(k_words, PList []); (k_color, PStr col)], []. split; [right; auto|].
    cbn [negb _keywords]. rewrite dict_get_set_same.
    replace (subscript (PDict [(k_words, PList []); (k_color, PStr col)]) k_words)
      with (Some (PList [])) by reflexivity.
    cbn [contains existsb negb _keywords _change_callbacks trace].
    now rewrite dict_set_set.
Qed.

(** The state a successful [remove_keyword] leaves. *)
Lemma remove_result st c w :
  valid_registry (_keywords st) -> has_keyword (_keywords st) c w = true ->
  exists d ws col,
    dict_get c (_keywords st) = Some (PDict d)
    /\ dict_get k_words d = Some (PList ws)
    /\ dict_get k_color d = Some (PStr col)
    /\ existsb (eq_str w) ws = true
    /\ remove_keyword c w st
       = let kw1 := dict_set c (PDict (dict_set k_words (PList (remove_first w ws)) d))
                             (_keywords st) in
         let kw' := match remove_first w ws with
                    | [] => dict_del c kw1
                    | _ :: _ => kw1
                    end in
         Some (true, Manager kw' (_change_callbacks st)
                             (trace st ++ notify_events 0 (_change_callbacks st) kw')).
Proof.
  destruct st as [kw cbs tr]. cbn [_keywords _change_callbacks trace]. intros Hv Hp.
  unfold has_keyword, words_of in Hp.
  destruct (dict_get c kw) as [data|] eqn:Eg; [|discriminate].
  destruct (valid_lookup _ _ _ Hv Eg) as (d & ws & col & -> & Ew & Ec).
  rewrite Ew in Hp. exists d, ws, col. repeat (split; [assumption || reflexivity|]).
  unfold remove_keyword, bind, ret, try, keywords, set_dict, _notify_change, emit, dict_mem.
  cbn [_keywords _change_callbacks trace]. rewrite Eg. cbn [subscript]. rewrite Ew.
  cbn [contains]. rewrite Hp.
  now destruct (remove_first w ws).
Qed.

End RegistryMore.

Section RegistryLaws.
Import KeywordManager MollangKeywords.

Lemma remove_first_length w ws :
  existsb (eq_str w) ws = true -> S (length (remove_first w ws)) = length ws.
Proof.
  induction ws as [|x ws IH]; cbn [existsb remove_first length]; [discriminate|].
  destruct (eq_str w x); cbn [orb length]; [reflexivity|]. intros H. now rewrite IH.
Qed.

Lemma remove_first_keeps w w' ws :
  w' <> w -> existsb (eq_str w') ws = true ->
  existsb (eq_str w') (remove_first w ws) = true.
Proof.
  intros Hne. induction ws as [|x ws IH]; cbn [existsb remove_first]; [discriminate|].
  destruct (eq_str w x) eqn:Ex.
  - destruct (eq_str w' x) eqn:Ex'; cbn [orb]; [|auto].
    destruct x; try discriminate. cbn [eq_str] in Ex, Ex'.
    apply pystr_eqb_eq in Ex, Ex'. congruence.
  - cbn [existsb]. destruct (eq_str w' x); cbn [orb]; auto.
Qed.

(** On a registry that passes validation no single-step mutation raises,
    and the registry still passes validation afterwards. *)
Theorem mutations_keep_registry_valid (mu : mutation) (st : manager) :
  valid_registry (_keywords st) ->
  exists b st', run mu st = Some (b, st') /\ valid_registry (_keywords st').
Proof.
  intros Hv. destruct mu as [p|c w col|c w]; cbn [run].
  - unfold set_keywords. destruct (validate_keyword_data p) eqn:Ep.
    + destruct p as [ | | | | |d]; try discriminate Ep.
      eexists _, _. split; [reflexivity|]. exact Ep.
    + eexists _, _. split; [reflexivity|]. exact Hv.
  - destruct (has_keyword (_keywords st) c w) eqn:Ep.
    + exists false, st. split; [now apply add_present|assumption].
    + destruct (add_result st c w col Hv Ep) as (d & ws & _ & ->).
      eexists _, _. split; [reflexivity|]. cbn [_keywords].
      apply valid_dict_set; [assumption|apply valid_category_added].
  - destruct (has_keyword (_keywords st) c w) eqn:Ep.
    + destruct (remove_result st c w Hv Ep) as (d & ws & col & _ & _ & Ec & _ & ->).
      eexists _, _. split; [reflexivity|]. cbn [_keywords].
      assert (H1 : valid_registry
                     (dict_set c (PDict (dict_set k_words (PList (remove_first w ws)) d))
                               (_keywords st)))
        by (apply valid_dict_set; [assumption|now apply valid_category_words with col]).
      destruct (remove_first w ws); [now apply valid_dict_del|assumption].
    + exists false, st. split; [now apply remove_missing|assumption].
Qed.

Lemma mutations_keep_registry_valid_witness :
  exists b st',
    run (MRemove (u "종료_키워드") (u "0ㅅ0")) two_observers = Some (b, st')
    /\ valid_registry (_keywords st').
Proof.
  apply (mutations_keep_registry_valid (MRemove (u "종료_키워드") (u "0ㅅ0")) two_observers).
  reflexivity.
Defined.

(** Adding a word that its category already lists is refused: the call
    returns failure, the colour passed is discarded with it, and registry,
    callbacks and trace are as before. *)
Theorem add_duplicate_changes_nothing (st : manager) (category word color : pystr) :
  valid_registry (_keywords st) ->
  has_keyword (_keywords st) category word = true ->
  add_keyword category word color st = Some (false, st).
Proof. intros Hv Hp. now apply add_present. Qed.

Lemma add_duplicate_changes_nothing_witness :
  add_keyword (u "함수명") (u "말랑") (u "#000000") two_observers
  = Some (false, two_observers).
Proof.
  apply (add_duplicate_changes_nothing two_observers (u "함수명") (u "말랑") (u "#000000"));
    reflexivity.
Defined.

(** Adding a word its category does not list succeeds: the word goes to
    the end of the category's list (a missing category is created with the
    word as its only one), the category takes the colour passed, and every
    other category is untouched. *)
Theorem add_new_word_effect (st : manager) (category word color : pystr) :
  valid_registry (_keywords st) ->
  has_keyword (_keywords st) category word = false ->
  exists st',
    add_keyword category word color st = Some (true, st')
    /\ words_of (_keywords st') category
       = Some (match words_of (_keywords st) category with
               | Some ws => ws
               | None => []
               end ++ [PStr word])
    /\ (exists d, dict_get category (_keywords st') = Some (PDict d)
                  /\ dict_get k_color d = Some (PStr color))
    /\ (forall c, c <> category ->
                  dict_get c (_keywords st') = dict_get c (_keywords st)).
Proof.
  intros Hv Hp. destruct (add_result st category word color Hv Hp) as (d & ws & Hd & ->).
  eexists. split; [reflexivity|]. cbn [_keywords].
  unfold words_of. rewrite dict_get_set_same.
  rewrite (dict_get_set_other k_words k_color) by apply k_words_color.
  rewrite dict_get_set_same. split; [|split].
  - destruct Hd as [[Hg Hw]|(Hg & -> & ->)]; rewrite Hg; [now rewrite Hw|reflexivity].
  - eexists. split; [reflexivity|]. apply dict_get_set_same.
  - intros c Hc. now apply dict_get_set_other.
Qed.

Lemma add_new_word_effect_witness :
  exists st',
    add_keyword (u "사용자") (u "몰랑") (u "#123456") two_observers = Some (true, st')
    /\ words_of (_keywords st') (u "사용자")
       = Some (match words_of (_keywords two_observers) (u "사용자") with
               | Some ws => ws
               | None => []
               end ++ [PStr (u "몰랑")])
    /\ (exists d, dict_get (u "사용자") (_keywords st') = Some (PDict d)
                  /\ dict_get k_color d = Some (PStr (u "#123456")))
    /\ (forall c, c <> u "사용자" ->
                  dict_get c (_keywords st') = dict_get c (_keywords two_observers)).
Proof.
  apply (add_new_word_effect two_observers (u "사용자") (u "몰랑") (u "#123456"));
    reflexivity.
Defined.

(** A single-step mutation that returns failure has changed nothing and
    called no callback, whatever the registry held. *)
Theorem failed_mutation_changes_nothing (mu : mutation) (st st' : manager) :
  run mu st = Some (false, st') -> st' = st.
Proof. intros H. exact (run_outcome mu st false st' H). Qed.

Lemma failed_mutation_changes_nothing_witness :
  match run (MSet (PList [])) two_observers with
  | Some (_, st') => st' = two_observers
  | None => True
  end.
Proof.
  apply (failed_mutation_changes_nothing (MSet (PList [])) two_observers two_observers).
  reflexivity.
Defined.

(** [on_change] puts the callback it is given last in the list of
    callbacks and changes neither the registry nor the trace. The next
    successful mutation then calls that callback exactly once, with the new
    mapping, and prints its exception when it raises one. *)
Theorem on_change_then_mutation (mu : mutation) (cb : callback) (st st1 st2 : manager) :
  on_change cb st = Some (tt, st1) ->
  run mu st1 = Some (true, st2) ->
  _keywords st1 = _keywords st /\ trace st1 = trace st
  /\ _change_callbacks st1 = _change_callbacks st ++ [cb]
  /\ _change_callbacks st2 = _change_callbacks st ++ [cb]
  /\ nth_error (_change_callbacks st2) (length (_change_callbacks st)) = Some cb
  /\ exists evs,
      trace st2 = trace st ++ evs
      /\ filter (is_call_of (length (_change_callbacks st))) evs
         = [Called (length (_change_callbacks st)) (_keywords st2)]
      /\ (forall e, cb (_keywords st2) = Raises e ->
                    In (Printed (u "키워드 변경 콜백 오류: " ++ e)) evs).
Proof.
  intros Ho Hr. unfold on_change in Ho. injection Ho as <-.
  cbn [_keywords trace _change_callbacks]. split; [reflexivity|]. split; [reflexivity|].
  split; [reflexivity|].
  destruct (run_outcome mu _ true st2 Hr) as [Hc Ht].
  cbn [_change_callbacks trace] in Hc, Ht.
  assert (Hnth : nth_error (_change_callbacks st ++ [cb]) (length (_change_callbacks st))
                 = Some cb)
    by (rewrite nth_error_app2, Nat.sub_diag by lia; reflexivity).
  split; [exact Hc|]. split; [now rewrite Hc|].
  eexists. split; [exact Ht|]. split.
  - rewrite calls_of_one, length_app. cbn [length Nat.leb andb].
    replace (length (_change_callbacks st) <? 0 + (length (_change_callbacks st) + 1))
      with true by (symmetry; apply Nat.ltb_lt; lia).
    reflexivity.
  - intros e He. eapply reports_of_notify; eassumption.
Qed.

Lemma on_change_then_mutation_witness :
  exists st2,
    run (MAdd (u "사용자") (u "몰랑") (u "#123456"))
        (Manager get_default_keywords [fun _ => Raises (u "boom")] [])
    = Some (true, st2)
    /\ _change_callbacks st2 = _change_callbacks init ++ [fun _ => Raises (u "boom")]
    /\ exists evs,
        trace st2 = trace init ++ evs
        /\ filter (is_call_of (length (_change_callbacks init))) evs
           = [Called (length (_change_callbacks init)) (_keywords st2)]
        /\ In (Printed (u "키워드 변경 콜백 오류: " ++ u "boom")) evs.
Proof.
  eexists. split; [vm_compute; reflexivity|].
  destruct (on_change_then_mutation
              (MAdd (u "사용자") (u "몰랑") (u "#123456")) (fun _ => Raises (u "boom"))
              init (Manager get_default_keywords [fun _ => Raises (u "boom")] []) _
              eq_refl ltac:(vm_compute; reflexivity))
    as (_ & _ & _ & Hc & _ & evs & Ht & Hcalls & Hrep).
  split; [exact Hc|]. exists evs. split; [exact Ht|]. split; [exact Hcalls|].
  apply Hrep. reflexivity.
Defined.

End RegistryLaws.

Section UpdateLaws.
Import KeywordManager MollangKeywords.

(** [update] is not atomic. When the old pair exists and the new pair,
    a different one, exists too, the remove step is carried out and
    notified, the add step is refused, and the call returns failure on a
    registry that no longer is the one before: the old entry is lost. *)
Theorem update_failure_loses_old_entry
        (st : manager) (old_category old_word new_category new_word new_color : pystr) :
  valid_registry (_keywords st) ->
  has_keyword (_keywords st) old_category old_word = true ->
  has_keyword (_keywords st) new_category new_word = true ->
  old_category <> new_category \/ old_word <> new_word ->
  exists st1,
    remove_keyword old_category old_word st = Some (true, st1)
    /\ update_keyword old_category old_word new_category new_word new_color st
       = Some (false, st1)
    /\ _keywords st1 <> _keywords st
    /\ trace st1 = trace st ++ notify_events 0 (_change_callbacks st) (_keywords st1).
Proof.
  intros Hv Hold Hnew Hdiff.
  destruct (remove_result st old_category old_word Hv Hold)
    as (d & ws & col & Hg & Hw & Hc & Hin & Hr).
  cbv zeta in Hr.
  set (kw1 := dict_set old_category
                       (PDict (dict_set k_words (PList (remove_first old_word ws)) d))
                       (_keywords st)) in *.
  set (kw' := match remove_first old_word ws with
              | [] => dict_del old_category kw1
              | _ :: _ => kw1
              end) in *.
  assert (Hv1 : valid_registry kw1)
    by (apply valid_dict_set; [assumption|now apply valid_category_words with col]).
  assert (Hv' : valid_registry kw')
    by (unfold kw'; destruct (remove_first old_word ws);
        [now apply valid_dict_del|assumption]).
  assert (Hstill : has_keyword kw' new_category new_word = true).
  { unfold has_keyword, words_of in Hnew |- *.
    destruct (list_eq_dec N.eq_dec new_category old_category) as [->|Hne].
    - rewrite Hg, Hw in Hnew.
      assert (Hk : existsb (eq_str new_word) (remove_first old_word ws) = true)
        by (apply remove_first_keeps; [intros ->; destruct Hdiff; congruence|assumption]).
      unfold kw'. destruct (remove_first old_word ws) as [|x ws'] eqn:Er;
        [discriminate Hk|].
      unfold kw1. rewrite dict_get_set_same, dict_get_set_same. exact Hk.
    - assert (Hsame : dict_get new_category kw' = dict_get new_category (_keywords st)).
      { unfold kw'. destruct (remove_first old_word ws);
          [rewrite dict_get_del_other by assumption|];
          unfold kw1; now rewrite dict_get_set_other. }
      now rewrite Hsame. }
  eexists. split; [exact Hr|]. split; [|split].
  - unfold update_keyword, bind. rewrite Hr.
    now apply add_present.
  - cbn [_keywords]. intros E.
    assert (Hd : dict_get old_category kw' = Some (PDict d)) by now rewrite E.
    unfold kw' in Hd. destruct (remove_first old_word ws) as [|x ws'] eqn:Er.
    + rewrite dict_get_del_same in Hd. discriminate.
    + unfold kw1 in Hd. rewrite dict_get_set_same in Hd. injection Hd as Hd.
      assert (Hw' : dict_get k_words d = Some (PList (x :: ws')))
        by (rewrite <- Hd at 1; apply dict_get_set_same).
      rewrite Hw in Hw'. injection Hw' as Hw'.
      apply remove_first_length in Hin. rewrite Er, <- Hw' in Hin.
      cbn [length] in Hin. lia.
  - reflexivity.
Qed.

Lemma update_failure_loses_old_entry_witness :
  exists st1,
    remove_keyword (u "함수명") (u "말랑") two_observers = Some (true, st1)
    /\ update_keyword (u "함수명") (u "말랑") (u "함수명") (u "머리") (u "#4CAF50")
                      two_observers
       = Some (false, st1)
    /\ _keywords st1 <> _keywords two_observers
    /\ trace st1
       = trace two_observers
         ++ notify_events 0 (_change_callbacks two_observers) (_keywords st1).
Proof.
  apply (update_failure_loses_old_entry
           two_observers (u "함수명") (u "말랑") (u "함수명") (u "머리") (u "#4CAF50")).
  - reflexivity.
  - reflexivity.
  - reflexivity.
  - right. discriminate.
Defined.

End UpdateLaws.


(** ** More on the compiler and the engine *)

Section CompilerLaws.
Import Regex MollangKeywords MollangHighlightingRules MollangSyntaxHighlighter.

Lemma find_app_first {A} (f : A -> bool) (l1 l2 : list A) :
  find f (l1 ++ l2) = match find f l1 with Some x => Some x | None => find f l2 end.
Proof.
  induction l1 as [|a l1 IH]; cbn [app find]; [reflexivity|].
  now destruct (f a).
Qed.

(** The custom rules are compiled last, so they have the final say: a
    character covered by a match of some custom rule ends with the format
    of a custom rule that covers it, whatever the built-in rules matched. *)
Theorem custom_rules_have_final_say
        (kw : dict) (custom : list rule) (text : pystr) (p : nat) :
  _add_custom_keyword_rules kw = Some custom ->
  p < length text ->
  existsb (fun r => covers ascii_word text r p) custom = true ->
  exists rules r,
    _setup_highlighting_rules kw = Some rules
    /\ In r custom
    /\ covers ascii_word text r p = true
    /\ nth_error (highlightBlock rules text) p = Some (Some (format r)).
Proof.
  intros Hc Hp Hex. exists (builtin_rules ++ custom).
  assert (Hf : exists r, find (fun r => covers ascii_word text r p) (rev custom) = Some r).
  { destruct (find _ (rev custom)) as [r|] eqn:Ef; [now exists r|].
    apply existsb_exists in Hex. destruct Hex as (r & Hin & Hr).
    rewrite (find_none _ _ Ef r) in Hr; [discriminate|]. now apply in_rev in Hin. }
  destruct Hf as (r & Hf). exists r.
  apply find_some in Hf as Hr. destruct Hr as [Hin Hr]. apply in_rev in Hin.
  split; [unfold _setup_highlighting_rules; now rewrite Hc|].
  split; [assumption|]. split; [assumption|].
  unfold highlightBlock. rewrite highlightBlock_nth by assumption.
  now rewrite rev_app_distr, find_app_first, Hf.
Qed.

Lemma custom_rules_have_final_say_witness :
  exists rules r,
    _setup_highlighting_rules [(u "사용자", category ["몰랑"]%string (u "#123456"))]
    = Some rules
    /\ In r [HighlightingRule (whole_word (u "몰랑")) (u "#123456") true]
    /\ covers ascii_word (u "a몰랑b") r 1 = true
    /\ nth_error (highlightBlock rules (u "a몰랑b")) 1 = Some (Some (format r)).
Proof.
  apply (custom_rules_have_final_say
           [(u "사용자", category ["몰랑"]%string (u "#123456"))]
           [HighlightingRule (whole_word (u "몰랑")) (u "#123456") true]
           (u "a몰랑b") 1).
  - reflexivity.
  - vm_compute. lia.
  - vm_compute. reflexivity.
Defined.

(** On a text of the Basic Multilingual Plane, where the offsets of the
    matches count characters, a character is left without a format exactly
    when no match of any rule covers it. *)
Theorem uncovered_character_has_no_format (rules : list rule) (text : pystr) (p : nat) :
  Forall (fun c => (c < 65536)%N) text ->
  p < length text ->
  (nth_error (highlightBlock rules text) p = Some None
   <-> forall r, In r rules -> covers ascii_word text r p = false).
Proof.
  intros _ Hp. unfold highlightBlock. rewrite highlightBlock_nth by assumption.
  destruct (find _ (rev rules)) as [r|] eqn:Ef; cbn [option_map].
  - apply find_some in Ef. destruct Ef as [Hin Hr]. apply in_rev in Hin.
    split; [discriminate|]. intros Hno. rewrite (Hno r Hin) in Hr. discriminate.
  - split; [|reflexivity]. intros _ r Hin.
    apply (find_none _ _ Ef). now apply in_rev in Hin.
Qed.

Lemma uncovered_character_has_no_format_witness :
  nth_error (highlightBlock default_rules (u "몰 몰")) 1 = Some None
  <-> forall r, In r default_rules -> covers ascii_word (u "몰 몰") r 1 = false.
Proof.
  apply (uncovered_character_has_no_format default_rules (u "몰 몰") 1).
  - vm_compute. repeat constructor.
  - vm_compute. lia.
Defined.

End CompilerLaws.

Section CompilerTotality.
Import Regex MollangKeywords MollangHighlightingRules MollangSyntaxHighlighter.

Lemma custom_rules_of_words_strings ws col :
  forallb is_str ws = true -> exists rs, custom_rules_of_words ws (PStr col) = Some rs.
Proof.
  induction ws as [|x ws IH]; cbn [forallb custom_rules_of_words]; intros Hs.
  - now exists [].
  - apply andb_prop in Hs. destruct Hs as [Hx Hs].
    destruct x; try discriminate Hx. destruct (IH Hs) as (rs & ->).
    destruct (negb (_is_default_keyword s)); eauto.
Qed.

Lemma custom_rules_of_words_not_strings ws color :
  forallb is_str ws = false -> custom_rules_of_words ws color = None.
Proof.
  induction ws as [|x ws IH]; cbn [forallb custom_rules_of_words]; intros Hs;
    [discriminate|].
  destruct x; try reflexivity. cbn [is_str andb] in Hs. specialize (IH Hs).
  destruct (negb (_is_default_keyword s)); [|exact IH].
  destruct color; try reflexivity. now rewrite IH.
Qed.

Lemma custom_rules_none_iff (kw : dict) :
  valid_registry kw ->
  (_add_custom_keyword_rules kw = None <-> words_are_strings kw = false).
Proof.
  intros Hv.
  unfold valid_registry, validate_keyword_data, words_are_strings in *.
  induction kw as [|[c data] kw IH]; cbn [forallb _add_custom_keyword_rules snd] in *.
  - split; discriminate.
  - apply andb_prop in Hv. destruct Hv as [H0 Hv]. specialize (IH Hv).
    unfold valid_category in H0.
    destruct data as [ | | | | |d]; try discriminate.
    destruct (dict_get k_words d) as [[ | | | |ws| ]|] eqn:Ew; try discriminate.
    destruct (dict_get k_color d) as [[ | | |col| | ]|] eqn:Ec; try discriminate.
    unfold custom_rules_of_category. rewrite Ew, Ec. cbn [iterate].
    destruct (forallb is_str ws) eqn:Es; cbn [andb].
    + destruct (custom_rules_of_words_strings ws col Es) as (rs & ->).
      destruct (_add_custom_keyword_rules kw); [|tauto].
      split; [discriminate|]. intros E. apply IH in E. discriminate.
    + rewrite (custom_rules_of_words_not_strings ws (PStr col) Es). tauto.
Qed.

Lemma setup_none_iff (kw : dict) :
  valid_registry kw ->
  (_setup_highlighting_rules kw = None <-> words_are_strings kw = false).
Proof.
  intros Hv. pose proof (custom_rules_none_iff kw Hv) as H.
  unfold _setup_highlighting_rules.
  destruct (_add_custom_keyword_rules kw); [|exact H].
  split; [discriminate|]. intros E. apply H in E. discriminate.
Qed.

(** On a registry that passes validation, the rule compiler raises exactly
    when some word is not a string: validation does not look at the words'
    types, [re.escape] does. *)
Theorem compiler_raises_iff_word_not_string (kw : dict) :
  valid_registry kw ->
  (_setup_highlighting_rules kw = None <-> words_are_strings kw = false).
Proof. exact (setup_none_iff kw). Qed.

Lemma compiler_raises_iff_word_not_string_witness :
  _setup_highlighting_rules [(u "X", PDict [(k_words, PList [PNum 1]);
                                            (k_color, PStr (u "#FFFFFF"))])] = None.
Proof.
  apply (compiler_raises_iff_word_not_string
           [(u "X", PDict [(k_words, PList [PNum 1]); (k_color, PStr (u "#FFFFFF"))])]);
    reflexivity.
Defined.

Lemma custom_rules_of_words_builtin ws col :
  forallb (fun x => match x with PStr s => _is_default_keyword s | _ => false end) ws
  = true ->
  custom_rules_of_words ws col = Some [].
Proof.
  induction ws as [|x ws IH]; cbn [forallb custom_rules_of_words]; intros H;
    [reflexivity|].
  apply andb_prop in H. destruct H as [Hx H].
  destruct x; try discriminate Hx. rewrite Hx. cbn [negb]. now apply IH.
Qed.

(** A registry that lists only built-in words adds no rule: the compiled
    list is the built-in list, whatever colours the registry gives them. *)
Theorem registry_of_builtin_words_adds_no_rule (kw : dict) :
  valid_registry kw ->
  words_are_strings kw = true ->
  (forall w, listed kw w -> listed get_default_keywords w) ->
  _setup_highlighting_rules kw = Some builtin_rules.
Proof.
  intros Hv Hs Hall.
  assert (H : _add_custom_keyword_rules kw = Some []).
  { unfold valid_registry, validate_keyword_data, words_are_strings in *.
    induction kw as [|[c data] kw IH]; cbn [forallb _add_custom_keyword_rules snd] in *.
    - reflexivity.
    - apply andb_prop in Hv. destruct Hv as [H0 Hv].
      apply andb_prop in Hs. destruct Hs as [Hs0 Hs].
      rewrite IH; auto.
      2:{ intros w (c0 & d0 & ws0 & Hin & Hw & Hi). apply Hall.
          exists c0, d0, ws0. repeat split; auto. now right. }
      unfold valid_category in H0.
      destruct data as [ | | | | |d]; try discriminate.
      destruct (dict_get k_words d) as [[ | | | |ws| ]|] eqn:Ew; try discriminate.
      destruct (dict_get k_color d) as [[ | | |col| | ]|] eqn:Ec; try discriminate.
      unfold custom_rules_of_category. rewrite Ew, Ec. cbn [iterate].
      rewrite custom_rules_of_words_builtin; [reflexivity|].
      apply forallb_forall. intros x Hx.
      rewrite forallb_forall in Hs0. specialize (Hs0 x Hx).
      destruct x; try discriminate Hs0.
      apply _is_default_keyword_spec. apply Hall.
      exists c, d, ws. repeat split; auto. now left. }
  unfold _setup_highlighting_rules. rewrite H. now rewrite app_nil_r.
Qed.

Lemma registry_of_builtin_words_adds_no_rule_witness :
  _setup_highlighting_rules [(u "내_분류", category ["루"; "아"]%string (u "#123456"))]
  = Some builtin_rules.
Proof.
  apply (registry_of_builtin_words_adds_no_rule
           [(u "내_분류", category ["루"; "아"]%string (u "#123456"))]).
  - reflexivity.
  - reflexivity.
  - intros w (c & d & ws & Hin & Hw & Hi).
    destruct Hin as [E|[]]. injection E as <- <-.
    vm_compute in Hw. injection Hw as <-.
    apply _is_default_keyword_spec.
    destruct Hi as [E|[E|[]]]; injection E as <-; reflexivity.
Defined.

End CompilerTotality.


(** ** The highlighter object and the configuration loader *)

Section HighlighterLaws.
Import MollangKeywords MollangSyntaxHighlighter.

(** [update_keywords] keeps the rule list in step with the keywords: when
    it returns, the rules are those compiled from the keywords the
    highlighter holds; a payload that fails validation changes nothing and
    one that passes becomes the keywords held. *)
Theorem update_keywords_keeps_rules_in_step
        (new_keywords : pyval) (h h' : Highlighter.highlighter) :
  in_step h ->
  Highlighter.update_keywords new_keywords h = Some h' ->
  in_step h'
  /\ (validate_keyword_data new_keywords = false -> h' = h)
  /\ (validate_keyword_data new_keywords = true ->
      new_keywords = PDict (Highlighter.get_keywords h')).
Proof.
  intros Hh Hu. unfold Highlighter.update_keywords in Hu.
  destruct (validate_keyword_data new_keywords) eqn:Ev.
  - destruct new_keywords as [ | | | | |d]; try discriminate.
    destruct (_setup_highlighting_rules d) as [rs|] eqn:Es; [|discriminate].
    injection Hu as <-. unfold in_step. cbn. repeat split; auto. discriminate.
  - injection Hu as <-. repeat split; auto. discriminate.
Qed.

Lemma update_keywords_keeps_rules_in_step_witness :
  in_step (Highlighter.Make get_default_keywords default_rules)
  /\ exists h',
      Highlighter.update_keywords payload_bad_color
        (Highlighter.Make get_default_keywords default_rules) = Some h'
      /\ in_step h'.
Proof.
  split; [reflexivity|]. eexists. split; [vm_compute; reflexivity|].
  eapply (update_keywords_keeps_rules_in_step
            payload_bad_color (Highlighter.Make get_default_keywords default_rules)).
  - reflexivity.
  - vm_compute. reflexivity.
Defined.

(** The factory hands out a highlighter whose keywords pass validation and
    whose rules are compiled from them. When the initial keywords are a
    non-empty mapping that passes validation, the highlighter holds that
    mapping; in every other case (no initial keywords, an empty mapping, a
    value that fails validation) it is the highlighter of the built-in
    keywords. *)
Theorem factory_highlighter_is_in_step
        (initial_keywords : pyval) (h : Highlighter.highlighter) :
  Highlighter.create_mollang_highlighter initial_keywords = Some h ->
  in_step h
  /\ valid_registry (Highlighter.get_keywords h)
  /\ (forall d, initial_keywords = PDict d -> d <> [] ->
                validate_keyword_data initial_keywords = true ->
                Highlighter.get_keywords h = d)
  /\ (~ (exists d, initial_keywords = PDict d /\ d <> []
                   /\ validate_keyword_data initial_keywords = true) ->
      h = Highlighter.Make get_default_keywords default_rules).
Proof.
  unfold Highlighter.create_mollang_highlighter, Highlighter.init.
  rewrite default_rules_compiled.
  destruct (Highlighter.truthy initial_keywords && validate_keyword_data initial_keywords)
    eqn:E.
  - apply andb_prop in E. destruct E as [Ht Ev]. unfold Highlighter.update_keywords.
    rewrite Ev. destruct initial_keywords as [ | | | | |d]; try discriminate.
    destruct (_setup_highlighting_rules d) as [rs|] eqn:Es; [|discriminate].
    intros [= <-]. unfold in_step. cbn [Highlighter._keywords Highlighter.get_keywords
                                         Highlighter.highlighting_rules].
    split; [assumption|]. split; [exact Ev|]. split.
    + intros d' [= <-] _ _. reflexivity.
    + intros Hn. exfalso. apply Hn. exists d. split; [reflexivity|]. split; [|reflexivity].
      intros ->. discriminate Ht.
  - intros [= <-]. unfold in_step. cbn [Highlighter._keywords Highlighter.get_keywords
                                         Highlighter.highlighting_rules].
    split; [reflexivity|]. split; [reflexivity|]. split; [|reflexivity].
    intros d -> Hd Ev. rewrite Ev, andb_true_r in E.
    destruct d; [now destruct Hd|discriminate E].
Qed.

Lemma factory_highlighter_is_in_step_witness :
  (exists h,
      Highlighter.create_mollang_highlighter payload_bad_color = Some h
      /\ in_step h
      /\ PDict (Highlighter.get_keywords h) = payload_bad_color)
  /\ (exists h,
         Highlighter.create_mollang_highlighter (PDict []) = Some h
         /\ h = Highlighter.Make get_default_keywords default_rules).
Proof.
  split.
  - eexists. split; [vm_compute; reflexivity|].
    destruct (factory_highlighter_is_in_step payload_bad_color _
                ltac:(vm_compute; reflexivity)) as (Hs & _ & Hheld & _).
    split; [exact Hs|].
    rewrite (Hheld _ eq_refl ltac:(discriminate) eq_refl). reflexivity.
  - eexists. split; [vm_compute; reflexivity|].
    destruct (factory_highlighter_is_in_step (PDict []) _
                ltac:(vm_compute; reflexivity)) as (_ & _ & _ & Hdef).
    apply Hdef. intros (d & E & Hd & _). injection E as <-. now apply Hd.
Defined.

End HighlighterLaws.

Section ConfigLaws.
Import KeywordManager MollangKeywords MollangSyntaxHighlighter.

Variable int16_ok : pystr -> bool.

Lemma config_category_valid (data : pyval) :
  Config.is_valid_keyword_category int16_ok data = true ->
  valid_category data = true
  /\ match data with
     | PDict d =>
       match dict_get k_words d with
       | Some (PList ws) => forallb is_str ws
       | _ => true
       end
     | _ => true
     end = true.
Proof.
  unfold Config.is_valid_keyword_category, valid_category.
  destruct data as [ | | | | |d]; try discriminate.
  destruct (negb (dict_mem k_words d && dict_mem k_color d)); [discriminate|].
  destruct (dict_get k_words d) as [[ | | | |ws| ]|]; try discriminate.
  fold is_str.
  destruct (forallb is_str ws); cbn [negb]; [|discriminate].
  destruct (dict_get k_color d) as [c|]; [|discriminate].
  unfold Config.is_valid_color. destruct c; try discriminate. auto.
Qed.

Lemma config_valid_registry_valid (d : dict) :
  fst (Config.validate_categories int16_ok d) = true ->
  valid_registry d /\ words_are_strings d = true.
Proof.
  unfold valid_registry, validate_keyword_data, words_are_strings.
  induction d as [|[c data] d IH]; cbn [Config.validate_categories forallb snd].
  - auto.
  - destruct (Config.is_valid_keyword_category int16_ok data) eqn:E; [|discriminate].
    intros H. destruct (IH H) as [H1 H2]. apply config_category_valid in E.
    destruct E as [E1 E2]. now rewrite E1, E2, H1, H2.
Qed.

(** The configuration validator is stricter than the registry's own: a
    payload it accepts is a mapping that [validate_keyword_data] accepts
    too, whose words are all strings, so that [set_keywords] takes it and
    the rule compiler does not raise on it. *)
Theorem config_valid_payload_is_usable (payload : pyval) :
  fst (Config.validate_keywords_data int16_ok payload) = true ->
  exists d,
    payload = PDict d
    /\ validate_keyword_data payload = true
    /\ words_are_strings d = true
    /\ _setup_highlighting_rules d <> None
    /\ forall st, exists st',
         set_keywords payload st = Some (true, st') /\ _keywords st' = d.
Proof.
  intros H. destruct payload as [ | | | | |d]; try discriminate H.
  cbn [Config.validate_keywords_data] in H.
  destruct (config_valid_registry_valid d H) as [Hv Hs].
  exists d. repeat split; auto.
  - intros E. apply (setup_none_iff d Hv) in E. congruence.
  - intros st. rewrite (set_keywords_accepts st d Hv). eexists. split; reflexivity.
Qed.

(** [load_config] never raises and is all or nothing: either the file
    could not be read or the configuration validator refused it, and the
    manager is exactly as before, or the validator accepted the mapping,
    which then replaces the registry, with one notification. *)
Theorem load_config_all_or_nothing (loaded : pyval + pystr) (st : manager) :
  exists st',
    Config.load_config int16_ok loaded st = Some (tt, st')
    /\ ((fst (fst (Config.load_keywords_with_validation int16_ok loaded)) = false
         /\ st' = st)
        \/ exists d,
            loaded = inl (PDict d)
            /\ fst (Config.validate_keywords_data int16_ok (PDict d)) = true
            /\ st' = Manager d (_change_callbacks st)
                             (trace st ++ notify_events 0 (_change_callbacks st) d)).
Proof.
  unfold Config.load_config, Config.load_keywords_with_validation.
  destruct loaded as [keywords|msg].
  - destruct (Config.validate_keywords_data int16_ok keywords) as [[|] e] eqn:Ev.
    + assert (Hf : fst (Config.validate_keywords_data int16_ok keywords) = true)
        by now rewrite Ev.
      destruct keywords as [ | | | | |d]; try discriminate Hf.
      cbn [Config.validate_keywords_data] in Hf.
      destruct (config_valid_registry_valid d Hf) as [Hv _].
      unfold bind. rewrite (set_keywords_accepts st d Hv).
      eexists. split; [reflexivity|]. right. exists d. repeat split.
      cbn [Config.validate_keywords_data]. exact Hf.
    + exists st. split; [reflexivity|]. left. auto.
  - exists st. split; [reflexivity|]. left. auto.
Qed.

End ConfigLaws.

Section ConfigWitness.
Import KeywordManager MollangKeywords MollangSyntaxHighlighter.

Lemma config_valid_payload_is_usable_witness :
  fst (Config.validate_keywords_data hex_digits_ok (PDict get_default_keywords)) = true
  /\ exists d,
      PDict get_default_keywords = PDict d
      /\ validate_keyword_data (PDict get_default_keywords) = true
      /\ words_are_strings d = true
      /\ _setup_highlighting_rules d <> None
      /\ forall st, exists st',
           set_keywords (PDict get_default_keywords) st = Some (true, st')
           /\ _keywords st' = d.
Proof.
  split; [reflexivity|].
  apply (config_valid_payload_is_usable hex_digits_ok (PDict get_default_keywords)).
  reflexivity.
Defined.

End ConfigWitness.


(** ** The string-output pattern *)

Section StringOutput.
Import Regex MollangKeywords MollangHighlightingRules.

Variable is_word : N -> bool.
Variable text : pystr.

Lemma search_is_match r n start s e :
  search is_word text r n start = Some (s, e) ->
  match_at is_word text r false s = Some e.
Proof.
  revert start. induction n as [|n IH]; intros start H; cbn [search] in H;
    destruct (match_at is_word text r false start) as [e'|] eqn:E; try discriminate.
  - now injection H as <- <-.
  - now injection H as <- <-.
  - eauto.
Qed.

(** Every element of a global match is a match of the pattern at its start. *)
Lemma global_loop_is_match r fuel offset pe s len :
  offset <= length text ->
  In (s, len) (global_loop is_word text r fuel offset pe) ->
  exists ne, match_at is_word text r ne s = Some (s + len).
Proof.
  revert offset pe. induction fuel as [|fuel IH]; intros offset pe Ho Hin;
    cbn [global_loop] in Hin; [contradiction|].
  destruct (if pe
            then match match_at is_word text r true offset with
                 | Some e => Some (offset, e)
                 | None => search_from is_word text r (S offset)
                 end
            else search_from is_word text r offset) as [[s' e]|] eqn:Ef;
    [|contradiction].
  assert (Hb : s' <= e <= length text
               /\ exists ne, match_at is_word text r ne s' = Some e).
  { destruct pe.
    - destruct (match_at is_word text r true offset) as [e'|] eqn:Em.
      + injection Ef as <- <-. split; [|eauto].
        apply match_at_bounds in Em; lia.
      + split; [apply search_from_bounds in Ef; lia|].
        unfold search_from in Ef. destruct (S offset <=? length text); [|discriminate].
        apply search_is_match in Ef. eauto.
    - split; [apply search_from_bounds in Ef; lia|].
      unfold search_from in Ef. destruct (offset <=? length text); [|discriminate].
      apply search_is_match in Ef. eauto. }
  destruct Hb as [Hb (ne & Hm)].
  destruct Hin as [E|Hin].
  - injection E as <- <-. exists ne. now replace (s' + (e - s')) with e by lia.
  - apply IH in Hin; [assumption|lia].
Qed.

(** The negative lookahead of the string-output pattern does its work: a
    match of that pattern is never followed by a question mark, so a
    string-input occurrence is never taken for a string output. *)
Theorem string_output_not_before_question_mark (s len : nat) :
  In (s, len)
     (globalMatch is_word text
        (seq [variable; l "~"; variable; l "루"; NegLook (l "?")])) ->
  nth_error string_io 1 = Some (seq [variable; l "~"; variable; l "루"; NegLook (l "?")])
  /\ nth_error text (s + len) <> Some 63%N.
Proof.
  intros Hin. split; [reflexivity|].
  assert (Hs : s <= length text)
    by (apply (global_loop_in_text text is_word) in Hin; lia).
  apply global_loop_is_match in Hin; [|lia]. destruct Hin as (ne & Hm).
  unfold match_at in Hm. cbn [seq m] in Hm.
  apply (m_bounded text is_word variable) in Hm; [|assumption].
  destruct Hm as (p1 & Hp1 & Hm).
  apply (m_bounded text is_word (l "~")) in Hm; [|lia].
  destruct Hm as (p2 & Hp2 & Hm).
  apply (m_bounded text is_word variable) in Hm; [|lia].
  destruct Hm as (p3 & Hp3 & Hm).
  apply (m_bounded text is_word (l "루")) in Hm; [|lia].
  destruct Hm as (p4 & Hp4 & Hm).
  destruct (m is_word text (l "?") p4 (fun p => Some p)) eqn:Eq; [discriminate|].
  assert (Hend : p4 = s + len)
    by (destruct (ne && (p4 =? s)); [discriminate|congruence]).
  subst p4. intros Hq.
  change (l "?") with (Chr 63%N) in Eq. cbn [m] in Eq. rewrite Hq in Eq.
  discriminate Eq.
Qed.

End StringOutput.

Section StringOutputWitness.
Import Regex MollangKeywords.

Lemma string_output_not_before_question_mark_witness :
  nth_error string_io 1 = Some (seq [variable; l "~"; variable; l "루"; NegLook (l "?")])
  /\ nth_error (u "몰~몰루 몰~몰루?") (0 + 4) <> Some 63%N.
Proof.
  apply (string_output_not_before_question_mark ascii_word (u "몰~몰루 몰~몰루?") 0 4).
  vm_compute. left. reflexivity.
Defined.

End StringOutputWitness.
